(** * Fleet Operations Data Analysis: the data transformations of [app.py]

    The dashboard loads the sheets of a workbook into data frames,
    derives two columns on the Trips frame and runs one of six analyses.
    This development embeds those transformations:

    - a data frame is the list of its rows, a row a record of its cells;
    - a missing cell ([NaN], [NaT], [None]) is [None], or the [NaN] of
      [fnum] in a float column;
    - a [datetime64[ns]] value is its count of nanoseconds, in [Z];
    - a float is its exact value: a rational, an infinity or [NaN]
      (rounding and the sign of zero are left out). *)

From Stdlib Require Import ZArith QArith Qcanon List Bool Ascii String Lia.
From Stdlib Require Import Sorted Permutation OrdersEx RelationClasses.
Import ListNotations.

Local Open Scope Z_scope.

(** ** Numbers *)

Definition Z2Qc (z : Z) : Qc := Q2Qc (inject_Z z).

Definition Qcltb (a b : Qc) : bool :=
  match (a ?= b)%Qc with Lt => true | _ => false end.

Definition Qceqb (a b : Qc) : bool :=
  match (a ?= b)%Qc with Eq => true | _ => false end.

(** A cell of a float64 column. *)
Inductive fnum : Type :=
| Fin (q : Qc)
| PInf
| NInf
| NaN.

Definition fzero : fnum := Fin (Z2Qc 0).

Definition of_int (z : Z) : fnum := Fin (Z2Qc z).

(** An integer column that holds a missing value is a float column. *)
Definition of_optint (z : option Z) : fnum :=
  match z with
  | Some z => of_int z
  | None => NaN
  end.

Definition is_nan (x : fnum) : bool :=
  match x with NaN => true | _ => false end.

(** [x + y], elementwise on columns. *)
Definition fadd (x y : fnum) : fnum :=
  match x, y with
  | NaN, _ | _, NaN => NaN
  | Fin a, Fin b => Fin (a + b)%Qc
  | PInf, NInf | NInf, PInf => NaN
  | PInf, _ | _, PInf => PInf
  | NInf, _ | _, NInf => NInf
  end.

(** [x / y], elementwise on columns: a zero divisor gives an infinity
    or [NaN], it does not raise. *)
Definition fdiv (x y : fnum) : fnum :=
  match x, y with
  | NaN, _ | _, NaN => NaN
  | Fin a, Fin b =>
      if Qceqb b (Z2Qc 0) then
        if Qcltb (Z2Qc 0) a then PInf
        else if Qcltb a (Z2Qc 0) then NInf
        else NaN
      else Fin (a / b)%Qc
  | Fin _, (PInf | NInf) => fzero
  | PInf, Fin b => if Qcltb b (Z2Qc 0) then NInf else PInf
  | NInf, Fin b => if Qcltb b (Z2Qc 0) then PInf else NInf
  | (PInf | NInf), (PInf | NInf) => NaN
  end.

(** [x < y]: false as soon as one side is [NaN]. *)
Definition flt (x y : fnum) : bool :=
  match x, y with
  | NaN, _ | _, NaN => false
  | Fin a, Fin b => Qcltb a b
  | NInf, (Fin _ | PInf) => true
  | Fin _, PInf => true
  | _, _ => false
  end.

(** [x > y]. *)
Definition fgt (x y : fnum) : bool := flt y x.

(** [Series.sum()]: missing values are skipped, the empty sum is 0. *)
Fixpoint fsum (l : list fnum) : fnum :=
  match l with
  | [] => fzero
  | x :: l' => if is_nan x then fsum l' else fadd x (fsum l')
  end.

(** [Series.mean()]: missing values are skipped; [NaN] when nothing is left. *)
Definition fmean (l : list fnum) : fnum :=
  let present := filter (fun x => negb (is_nan x)) l in
  match present with
  | [] => NaN
  | _ => fdiv (fsum present) (of_int (Z.of_nat (List.length present)))
  end.

(** ** Timestamps *)

Definition ns_per_second : Z := 1000000000.
Definition ns_per_day : Z := 86400 * ns_per_second.

(** A [datetime64[ns]] cell; [None] is [NaT]. *)
Definition timestamp : Type := option Z.

(** [a >= b] against a scalar: false on [NaT]. *)
Definition ts_ge (a : timestamp) (b : Z) : bool :=
  match a with
  | Some x => b <=? x
  | None => false
  end.

(** [a < b] against a scalar: false on [NaT]. *)
Definition ts_lt (a : timestamp) (b : Z) : bool :=
  match a with
  | Some x => x <? b
  | None => false
  end.

(** [a - b] on two datetime columns, a timedelta in nanoseconds. *)
Definition ts_sub (a b : timestamp) : option Z :=
  match a, b with
  | Some x, Some y => Some (x - y)
  | _, _ => None
  end.

(** [.dt.total_seconds()]. *)
Definition total_seconds (d : option Z) : fnum :=
  match d with
  | Some ns => Fin (Z2Qc ns / Z2Qc ns_per_second)%Qc
  | None => NaN
  end.

(** [.dt.days]: whole days, rounded down. *)
Definition td_days (d : option Z) : option Z :=
  match d with
  | Some ns => Some (ns / ns_per_day)
  | None => None
  end.

(** ** The Trips frame *)

(** A row of the Trips frame after preprocessing. *)
Record trip : Type := {
  trip_id : option string;
  vehicle_id : option string;
  driver_id : option string;
  trip_date : timestamp;
  start_time : timestamp;
  end_time : timestamp;
  distance : fnum;
  trip_datetime : timestamp;
  duration_hrs : fnum
}.

(** [to_datetime(date.strftime('%Y-%m-%d') + ' ' + start.strftime('%H:%M:%S'))]:
    the calendar day of the first and the time of day of the second,
    to the second. *)
Definition combine_datetime (date start : timestamp) : timestamp :=
  match date, start with
  | Some d, Some s =>
      Some ((d / ns_per_day) * ns_per_day
            + ((s mod ns_per_day) / ns_per_second) * ns_per_second)
  | _, _ => None
  end.

Definition hours_between (start stop : timestamp) : fnum :=
  fdiv (total_seconds (ts_sub stop start)) (of_int 3600).

Section Preprocess.

(** What a cell of the workbook holds, and [pd.to_datetime] with
    [errors='coerce'] on one cell: [None] when it does not parse. *)
Variable cell : Type.
Variable to_datetime : cell -> timestamp.

(** A row of the Trips sheet as loaded. *)
Record raw_trip : Type := {
  raw_trip_id : option string;
  raw_vehicle_id : option string;
  raw_driver_id : option string;
  raw_trip_date : cell;
  raw_start_time : cell;
  raw_end_time : cell;
  raw_distance : fnum
}.

Definition preprocess_row (r : raw_trip) : trip :=
  let date := to_datetime (raw_trip_date r) in
  let start := to_datetime (raw_start_time r) in
  let stop := to_datetime (raw_end_time r) in
  {| trip_id := raw_trip_id r;
     vehicle_id := raw_vehicle_id r;
     driver_id := raw_driver_id r;
     trip_date := date;
     start_time := start;
     end_time := stop;
     distance := raw_distance r;
     trip_datetime := combine_datetime date start;
     duration_hrs := hours_between start stop |}.

(** The five column assignments of the preprocessing block. *)
Definition preprocess (trips_df : list raw_trip) : list trip :=
  map preprocess_row trips_df.

End Preprocess.

Arguments raw_trip_id {cell} _.
Arguments raw_vehicle_id {cell} _.
Arguments raw_driver_id {cell} _.
Arguments raw_trip_date {cell} _.
Arguments raw_start_time {cell} _.
Arguments raw_end_time {cell} _.
Arguments raw_distance {cell} _.
Arguments preprocess_row {cell} _ _.
Arguments preprocess {cell} _ _.

(** ** Grouping *)

Definition present {A : Type} (x : option A) : bool :=
  match x with Some _ => true | None => false end.

Definition key_is (k : string) (x : option string) : bool :=
  match x with
  | Some s => String.eqb s k
  | None => false
  end.

(** The group keys of [groupby]: the values of the key column without
    the missing ones, each once, in increasing order. *)
Fixpoint insert_key (k : string) (l : list string) : list string :=
  match l with
  | [] => [k]
  | x :: l' =>
      match String.compare k x with
      | Lt => k :: l
      | Eq => l
      | Gt => x :: insert_key k l'
      end
  end.

Fixpoint group_keys (col : list (option string)) : list string :=
  match col with
  | [] => []
  | Some k :: col' => insert_key k (group_keys col')
  | None :: col' => group_keys col'
  end.

(** [df.groupby(key)]: one group per key, its rows in frame order. *)
Definition groupby (key : trip -> option string) (df : list trip)
  : list (string * list trip) :=
  map (fun k => (k, filter (fun r => key_is k (key r)) df))
      (group_keys (map key df)).

(** The ['count'] aggregation of a column: its cells that are not missing. *)
Definition count {A : Type} (col : list (option A)) : Z :=
  Z.of_nat (List.length (filter present col)).

(** The ['min'] and ['max'] aggregations of a datetime column. *)
Fixpoint ts_min (col : list timestamp) : timestamp :=
  match col with
  | [] => None
  | None :: col' => ts_min col'
  | Some x :: col' =>
      match ts_min col' with
      | Some m => Some (Z.min x m)
      | None => Some x
      end
  end.

Fixpoint ts_max (col : list timestamp) : timestamp :=
  match col with
  | [] => None
  | None :: col' => ts_max col'
  | Some x :: col' =>
      match ts_max col' with
      | Some m => Some (Z.max x m)
      | None => Some x
      end
  end.

(** ** Analysis 1: underutilized vehicles *)

(** *** The last 7 days *)

(** [datetime.now() - timedelta(days=7)]. *)
Definition date_cutoff (now : Z) : Z := now - 7 * ns_per_day.

Definition recent_trips (now : Z) (trips_df : list trip) : list trip :=
  filter (fun r => ts_ge (trip_date r) (date_cutoff now)) trips_df.

Record summary_row : Type := {
  s_vehicle_id : string;
  trips_7_days : Z;
  distance_7_days : fnum
}.

Definition summarise (g : string * list trip) : summary_row :=
  {| s_vehicle_id := fst g;
     trips_7_days := count (map trip_id (snd g));
     distance_7_days := fsum (map distance (snd g)) |}.

Definition summary (now : Z) (trips_df : list trip) : list summary_row :=
  map summarise (groupby vehicle_id (recent_trips now trips_df)).

Inductive metric_option : Type := TripCount | Distance.

Definition filtered (metric : metric_option) (threshold : Z)
  (now : Z) (trips_df : list trip) : list summary_row :=
  match metric with
  | TripCount => filter (fun s => trips_7_days s <? threshold) (summary now trips_df)
  | Distance =>
      filter (fun s => flt (distance_7_days s) (of_int threshold)) (summary now trips_df)
  end.

(** *** Over time *)

Record full_row : Type := {
  f_vehicle_id : string;
  total_trips : Z;
  total_distance : fnum;
  first_trip_date : timestamp;
  last_trip_date : timestamp
}.

Definition aggregate (g : string * list trip) : full_row :=
  {| f_vehicle_id := fst g;
     total_trips := count (map trip_id (snd g));
     total_distance := fsum (map distance (snd g));
     first_trip_date := ts_min (map trip_date (snd g));
     last_trip_date := ts_max (map trip_date (snd g)) |}.

Definition full_summary (trips_df : list trip) : list full_row :=
  map aggregate (groupby vehicle_id trips_df).

(** [(Last Trip Date - First Trip Date).dt.days + 1]. *)
Definition days_active (r : full_row) : option Z :=
  match td_days (ts_sub (last_trip_date r) (first_trip_date r)) with
  | Some d => Some (d + 1)
  | None => None
  end.

(** [Total Trips / (Days Active / 7)]. *)
Definition avg_trips_week (r : full_row) : fnum :=
  fdiv (of_int (total_trips r)) (fdiv (of_optint (days_active r)) (of_int 7)).

(** Comparisons of the Days Active column with 28: false on a missing value. *)
Definition days_lt (d : option Z) (n : Z) : bool :=
  match d with Some x => x <? n | None => false end.

Definition days_ge (d : option Z) (n : Z) : bool :=
  match d with Some x => n <=? x | None => false end.

Definition filtered_summary (trips_df : list trip) : list full_row :=
  filter (fun r => days_ge (days_active r) 28) (full_summary trips_df).

Definition fleet_avg (trips_df : list trip) : fnum :=
  fmean (map avg_trips_week (filtered_summary trips_df)).

(** The lambda applied to each row of [full_summary]. *)
Definition status_of (avg : fnum) (r : full_row) : string :=
  if days_lt (days_active r) 28 then "Too New"%string
  else if flt (avg_trips_week r) avg then "Underutilized"%string
  else "Utilized"%string.

(** What the long-term part shows: the table with its Status column,
    and the note, into which the fleet average is formatted. *)
Record long_term_view : Type := {
  table : list (full_row * string);
  note_average : fnum
}.

Definition long_term (trips_df : list trip) : long_term_view :=
  let avg := fleet_avg trips_df in
  {| table := map (fun r => (r, status_of avg r)) (full_summary trips_df);
     note_average := avg |}.

(** Every vehicle has Days Active below 28. *)
Definition all_too_new (trips_df : list trip) : Prop :=
  Forall (fun r => days_lt (days_active r) 28 = true) (full_summary trips_df).

(** ** Analysis 2: allocated and available vehicles *)

Record vehicle : Type := {
  v_vehicle_id : option string;
  v_status : option string
}.

Definition lower_char (c : ascii) : ascii :=
  let n := nat_of_ascii c in
  if andb (Nat.leb 65 n) (Nat.leb n 90) then ascii_of_nat (n + 32) else c.

(** [str.lower()], on the letters A to Z. *)
Fixpoint lower (s : string) : string :=
  match s with
  | EmptyString => EmptyString
  | String c s' => String (lower_char c) (lower s')
  end.

(** [vehicles_df['Status'].str.lower() == value]: false on a missing status. *)
Definition status_is (value : string) (v : vehicle) : bool :=
  match v_status v with
  | Some s => String.eqb (lower s) value
  | None => false
  end.

Definition allocated (vehicles_df : list vehicle) : list vehicle :=
  filter (status_is "allocated") vehicles_df.

Definition available (vehicles_df : list vehicle) : list vehicle :=
  filter (status_is "available") vehicles_df.

Definition len {A : Type} (l : list A) : Z := Z.of_nat (List.length l).

(** [a / b] on two Python integers: [None] is [ZeroDivisionError]. *)
Definition truediv (a b : Z) : option Qc :=
  if b =? 0 then None else Some (Z2Qc a / Z2Qc b)%Qc.

(** [(len(allocated) / max(len(available), 1)) * 100]. *)
Definition pct (vehicles_df : list vehicle) : option Qc :=
  match truediv (len (allocated vehicles_df))
                (Z.max (len (available vehicles_df)) 1) with
  | Some q => Some (q * Z2Qc 100)%Qc
  | None => None
  end.

(** ** Analysis 3: high idle time *)

(** The order of [sort_values]: missing values last. *)
Definition id_compare (a b : option string) : comparison :=
  match a, b with
  | Some x, Some y => String.compare x y
  | Some _, None => Lt
  | None, Some _ => Gt
  | None, None => Eq
  end.

Definition ts_compare (a b : timestamp) : comparison :=
  match a, b with
  | Some x, Some y => Z.compare x y
  | Some _, None => Lt
  | None, Some _ => Gt
  | None, None => Eq
  end.

(** Rows compared on (Vehicle ID, Trip DateTime). *)
Definition row_compare (a b : trip) : comparison :=
  match id_compare (vehicle_id a) (vehicle_id b) with
  | Eq => ts_compare (trip_datetime a) (trip_datetime b)
  | c => c
  end.

Definition row_le (a b : trip) : bool :=
  match row_compare a b with Gt => false | _ => true end.

(** [sort_values] on two columns sorts stably: rows that compare equal
    keep their order. *)
Fixpoint insert_row (r : trip) (l : list trip) : list trip :=
  match l with
  | [] => [r]
  | x :: l' => if row_le r x then r :: l else x :: insert_row r l'
  end.

Fixpoint sort_values (df : list trip) : list trip :=
  match df with
  | [] => []
  | r :: df' => insert_row r (sort_values df')
  end.

(** [groupby('Vehicle ID')['Trip DateTime'].diff()]: each row minus the
    row before it in its group; [prev] holds the last Trip DateTime seen
    in each group. A row without a Vehicle ID is in no group. *)
Fixpoint group_diff (prev : string -> option timestamp) (df : list trip)
  : list (option Z) :=
  match df with
  | [] => []
  | r :: df' =>
      match vehicle_id r with
      | None => None :: group_diff prev df'
      | Some v =>
          match prev v with
          | Some p => ts_sub (trip_datetime r) p
          | None => None
          end
          :: group_diff
               (fun k => if String.eqb k v then Some (trip_datetime r) else prev k)
               df'
      end
  end.

(** The state of [group_diff] once it has gone through [df]. *)
Fixpoint seen (prev : string -> option timestamp) (df : list trip)
  : string -> option timestamp :=
  match df with
  | [] => prev
  | r :: df' =>
      match vehicle_id r with
      | None => seen prev df'
      | Some v =>
          seen (fun k => if String.eqb k v then Some (trip_datetime r) else prev k) df'
      end
  end.

Definition idle_hours (d : option Z) : fnum :=
  fdiv (total_seconds d) (of_int 3600).

(** [trips_sorted] with its Idle Time (hrs) column. *)
Definition trips_sorted (trips_df : list trip) : list (trip * fnum) :=
  let sorted := sort_values trips_df in
  combine sorted (map idle_hours (group_diff (fun _ => None) sorted)).

Definition high_idle (trips_df : list trip) : list (trip * fnum) :=
  filter (fun r => fgt (snd r) (of_int 6)) (trips_sorted trips_df).

(** The three columns shown. *)
Record idle_row : Type := {
  i_vehicle_id : option string;
  i_trip_id : option string;
  idle_time_hrs : fnum
}.

Definition idle_columns (r : trip * fnum) : idle_row :=
  {| i_vehicle_id := vehicle_id (fst r);
     i_trip_id := trip_id (fst r);
     idle_time_hrs := snd r |}.

(** [.dropna()]: the rows with no missing cell. *)
Definition dropna (rows : list idle_row) : list idle_row :=
  filter (fun r => present (i_vehicle_id r) && present (i_trip_id r)
                   && negb (is_nan (idle_time_hrs r)))%bool rows.

Definition high_idle_shown (trips_df : list trip) : list idle_row :=
  dropna (map idle_columns (high_idle trips_df)).


(** ** Analysis 6: long trips *)

Record speed_row : Type := {
  the_trip : trip;
  expected_duration_hrs : fnum;
  speed_kmh : fnum
}.

Definition with_speed (r : trip) : speed_row :=
  {| the_trip := r;
     expected_duration_hrs := fdiv (distance r) (of_int 40);
     speed_kmh := fdiv (distance r) (duration_hrs r) |}.

Definition long_trips (trips_df : list trip) : list speed_row :=
  filter (fun r => flt (speed_kmh r) (of_int 10)) (map with_speed trips_df).

(** ** Analysis 1, the status of the mature vehicles *)

(** The Status column assigned to [filtered_summary]. *)
Definition filtered_status (trips_df : list trip) : list (full_row * string) :=
  let avg := fleet_avg trips_df in
  map (fun r => (r, if flt (avg_trips_week r) avg
                    then "Underutilized"%string else "Utilized"%string))
      (filtered_summary trips_df).

(** ** Analysis 2, the usage table *)

(** [trips_df.groupby('Vehicle ID').size()]: the rows of each group,
    with or without a Trip ID. *)
Definition usage (trips_df : list trip) : list (string * Z) :=
  map (fun g => (fst g, len (snd g))) (groupby vehicle_id trips_df).

(** The rows of [right] that a left join on Vehicle ID puts beside [v]. *)
Definition matching (v : vehicle) (right : list (string * Z)) : list Z :=
  map snd (filter (fun u => key_is (fst u) (v_vehicle_id v)) right).

(** [pd.merge(left, right, on='Vehicle ID', how='left')]: the left rows
    in their order, each beside every right row of its key, or beside a
    missing Trip Count when there is none. *)
Definition merge_left (left : list vehicle) (right : list (string * Z))
  : list (vehicle * option Z) :=
  flat_map (fun v =>
              match matching v right with
              | [] => [(v, None)]
              | ms => map (fun n => (v, Some n)) ms
              end) left.

(** A cell after [.fillna(0)]. *)
Inductive filled (A : Type) : Type :=
| Kept (a : A)
| Zero.

Arguments Kept {A} _.
Arguments Zero {A}.

Definition fillna {A : Type} (x : option A) : filled A :=
  match x with
  | Some a => Kept a
  | None => Zero
  end.

Record merged_row : Type := {
  m_vehicle_id : filled string;
  m_status : filled string;
  m_trip_count : Z
}.

Definition merged (vehicles_df : list vehicle) (trips_df : list trip)
  : list merged_row :=
  map (fun p =>
         {| m_vehicle_id := fillna (v_vehicle_id (fst p));
            m_status := fillna (v_status (fst p));
            m_trip_count := match snd p with Some n => n | None => 0 end |})
      (merge_left vehicles_df (usage trips_df)).

(** ** Analysis 4: peak usage hours and days *)

(** [.dt.hour]. *)
Definition hour_of (t : timestamp) : option Z :=
  match t with
  | Some ns => Some ((ns mod ns_per_day) / (3600 * ns_per_second))
  | None => None
  end.

(** The order given to the day histogram. *)
Definition day_order : list string :=
  ["Monday"; "Tuesday"; "Wednesday"; "Thursday"; "Friday"; "Saturday"; "Sunday"]%string.

(** [.dt.day_name()]: day 0 of the timestamps, 1 January 1970, is a Thursday. *)
Definition day_name (t : timestamp) : option string :=
  match t with
  | Some ns => nth_error day_order (Z.to_nat ((ns / ns_per_day + 3) mod 7))
  | None => None
  end.

Definition hour_column (trips_df : list trip) : list (option Z) :=
  map (fun r => hour_of (trip_datetime r)) trips_df.

Definition day_of_week_column (trips_df : list trip) : list (option string) :=
  map (fun r => day_name (trip_datetime r)) trips_df.

(** ** Analysis 5: driver trip counts *)

Record driver_row : Type := {
  d_driver_id : string;
  trip_count : Z;
  duty_hours : fnum
}.

Definition driver_totals (g : string * list trip) : driver_row :=
  {| d_driver_id := fst g;
     trip_count := count (map trip_id (snd g));
     duty_hours := fsum (map duration_hrs (snd g)) |}.

Definition driver_stats (trips_df : list trip) : list driver_row :=
  map driver_totals (groupby driver_id trips_df).

Section DriverRanking.

(** [sort_values(by='Trip Count', ascending=...)] on one column, with
    the default sort kind. *)
Variable sort_by_trip_count : bool -> list driver_row -> list driver_row.

Definition top_10 (trips_df : list trip) : list driver_row :=
  firstn 10 (sort_by_trip_count false (driver_stats trips_df)).

Definition bottom_10 (trips_df : list trip) : list driver_row :=
  firstn 10 (sort_by_trip_count true (driver_stats trips_df)).

End DriverRanking.

(** The two orders asked of [sort_by_trip_count]. *)
Definition descending (a b : driver_row) : Prop := trip_count b <= trip_count a.
Definition ascending (a b : driver_row) : Prop := trip_count a <= trip_count b.

(** An insertion sort on Trip Count, one of the sorts that
    [sort_by_trip_count] can be. *)
Fixpoint insert_driver (asc : bool) (r : driver_row) (l : list driver_row)
  : list driver_row :=
  match l with
  | [] => [r]
  | x :: l' =>
      if (if asc then trip_count r <=? trip_count x else trip_count x <=? trip_count r)
      then r :: l
      else x :: insert_driver asc r l'
  end.

Fixpoint insertion_sort (asc : bool) (l : list driver_row) : list driver_row :=
  match l with
  | [] => []
  | r :: l' => insert_driver asc r (insertion_sort asc l')
  end.

(** ** Orders and totals used in the statements *)

(** The order of the group keys. *)
Definition key_lt (a b : string) : Prop := String.compare a b = Lt.

(** The sum of an integer column. *)
Definition total (col : list Z) : Z := fold_right Z.add 0 col.

(** A float cell that holds a number, and not a negative one. *)
Definition finite_nonneg (x : fnum) : Prop := exists q, x = Fin q /\ (0 <= q)%Qc.

(** The row of [merged] for a row of the Vehicles sheet. *)
Definition merged_row_of (trips_df : list trip) (v : vehicle) : merged_row :=
  {| m_vehicle_id := fillna (v_vehicle_id v);
     m_status := fillna (v_status v);
     m_trip_count :=
       match v_vehicle_id v with
       | Some k => len (filter (fun r => key_is k (vehicle_id r)) trips_df)
       | None => 0
       end |}.

(** ** Sample sheets *)

Definition hour : Z := 3600 * ns_per_second.
Definition day : Z := ns_per_day.

(** A date or time cell of a workbook: a timestamp, or text that
    [pd.to_datetime] does not parse. *)
Inductive sheet_cell : Type :=
| Stamp (ns : Z)
| Text (s : string).

Definition parse_cell (c : sheet_cell) : timestamp :=
  match c with
  | Stamp ns => Some ns
  | Text _ => None
  end.

(** A trip that ends two hours before it starts, and one without a date. *)
Definition backwards_trip : raw_trip sheet_cell :=
  {| raw_trip_id := Some "T1"%string;
     raw_vehicle_id := Some "V1"%string;
     raw_driver_id := Some "D1"%string;
     raw_trip_date := Stamp (20 * day);
     raw_start_time := Stamp (30 * day + 10 * hour);
     raw_end_time := Stamp (30 * day + 8 * hour);
     raw_distance := of_int 50 |}.

Definition undated_trip : raw_trip sheet_cell :=
  {| raw_trip_id := Some "T2"%string;
     raw_vehicle_id := Some "V1"%string;
     raw_driver_id := Some "D2"%string;
     raw_trip_date := Text "n/a";
     raw_start_time := Stamp (30 * day + 9 * hour);
     raw_end_time := Stamp (30 * day + 11 * hour);
     raw_distance := of_int 60 |}.

Definition dated_trip : raw_trip sheet_cell :=
  {| raw_trip_id := Some "T3"%string;
     raw_vehicle_id := Some "V2"%string;
     raw_driver_id := Some "D1"%string;
     raw_trip_date := Stamp (29 * day);
     raw_start_time := Stamp (30 * day + 9 * hour);
     raw_end_time := Stamp (30 * day + 11 * hour);
     raw_distance := of_int 70 |}.

(** A preprocessed trip of [vehicle] that starts at [start] and lasts an hour. *)
Definition a_trip (id : option string) (vehicle : string) (start : Z) (km : Z) : trip :=
  {| trip_id := id;
     vehicle_id := Some vehicle;
     driver_id := Some "D1"%string;
     trip_date := Some ((start / ns_per_day) * ns_per_day);
     start_time := Some start;
     end_time := Some (start + hour);
     distance := of_int km;
     trip_datetime := Some start;
     duration_hrs := of_int 1 |}.

(** One vehicle, first and last seen four days apart. *)
Definition new_fleet : list trip :=
  [ a_trip (Some "T1"%string) "V1" (10 * day) 50;
    a_trip (Some "T2"%string) "V1" (13 * day) 60 ].

(** Two trips of one vehicle ten hours apart, the second without a Trip ID. *)
Definition blank_id_trips : list trip :=
  [ a_trip (Some "T1"%string) "V1" (10 * day) 50;
    a_trip None "V1" (10 * day + 10 * hour) 60 ].



(** Three vehicles: V1 and V2 active for 28 days, with 2 and 4 trips,
    and V3 active for 27 days, with 3 trips. *)
Definition mixed_fleet : list trip :=
  [ a_trip (Some "T1"%string) "V1" (1 * day) 10;
    a_trip (Some "T2"%string) "V2" (1 * day) 10;
    a_trip (Some "T3"%string) "V2" (8 * day) 10;
    a_trip (Some "T4"%string) "V2" (15 * day) 10;
    a_trip (Some "T5"%string) "V1" (28 * day) 10;
    a_trip (Some "T6"%string) "V2" (28 * day) 10;
    a_trip (Some "T7"%string) "V3" (2 * day) 10;
    a_trip (Some "T8"%string) "V3" (28 * day) 10;
    a_trip (Some "T9"%string) "V3" (28 * day) 10 ].

(** A trip of 5 km with the given duration. *)
Definition short_trip (id : string) (hrs : fnum) : trip :=
  {| trip_id := Some id;
     vehicle_id := Some "V1"%string;
     driver_id := Some "D1"%string;
     trip_date := None;
     start_time := None;
     end_time := None;
     distance := of_int 5;
     trip_datetime := None;
     duration_hrs := hrs |}.

Definition fleet : list vehicle :=
  [ {| v_vehicle_id := Some "V1"%string; v_status := Some "Allocated"%string |};
    {| v_vehicle_id := Some "V2"%string; v_status := Some "ALLOCATED"%string |};
    {| v_vehicle_id := Some "V3"%string; v_status := Some "maintenance"%string |};
    {| v_vehicle_id := Some "V4"%string; v_status := None |} ].

(** A trip with a driver and no dates. *)
Definition trip_of_driver (id driver : string) : trip :=
  {| trip_id := Some id;
     vehicle_id := Some "V1"%string;
     driver_id := Some driver;
     trip_date := None;
     start_time := None;
     end_time := None;
     distance := of_int 5;
     trip_datetime := None;
     duration_hrs := of_int 1 |}.

(** Three drivers, with 2, 1 and 3 trips. *)
Definition driver_trips : list trip :=
  [ trip_of_driver "T1" "D1"; trip_of_driver "T2" "D3"; trip_of_driver "T3" "D2";
    trip_of_driver "T4" "D3"; trip_of_driver "T5" "D1"; trip_of_driver "T6" "D3" ].

(** V1 with a dated trip, and V2 with a trip whose date did not parse. *)
Definition undated_fleet : list trip :=
  [ a_trip (Some "T1"%string) "V1" (10 * day) 50;
    {| trip_id := Some "T2"%string;
       vehicle_id := Some "V2"%string;
       driver_id := Some "D1"%string;
       trip_date := None;
       start_time := Some (9 * hour);
       end_time := Some (10 * hour);
       distance := of_int 60;
       trip_datetime := None;
       duration_hrs := of_int 1 |} ].

(** A trip that starts and ends at the same time. *)
Definition instant_trip : raw_trip sheet_cell :=
  {| raw_trip_id := Some "T4"%string;
     raw_vehicle_id := Some "V2"%string;
     raw_driver_id := Some "D1"%string;
     raw_trip_date := Stamp (29 * day);
     raw_start_time := Stamp (30 * day + 9 * hour);
     raw_end_time := Stamp (30 * day + 9 * hour);
     raw_distance := of_int 70 |}.

(** * Properties *)

(** ** Rationals *)

Lemma Qcltb_lt a b : Qcltb a b = true <-> (a < b)%Qc.
Proof.
  unfold Qcltb. rewrite Qclt_alt. destruct (a ?= b)%Qc; split; congruence.
Qed.

Lemma Qceqb_eq a b : Qceqb a b = true <-> a = b.
Proof.
  unfold Qceqb. rewrite Qceq_alt. destruct (a ?= b)%Qc; split; congruence.
Qed.

Lemma Z2Qc_0 : Z2Qc 0 = 0%Qc.
Proof. reflexivity. Qed.

Lemma Z2Qc_lt a b : a < b -> (Z2Qc a < Z2Qc b)%Qc.
Proof.
  intros H. unfold Z2Qc, Qclt. cbn [this Q2Qc].
  setoid_rewrite Qred_correct.
  unfold Qlt. simpl. lia.
Qed.

Lemma Z2Qc_pos z : 0 < z -> (0 < Z2Qc z)%Qc.
Proof. intros H. rewrite <- Z2Qc_0. apply Z2Qc_lt. exact H. Qed.

Lemma Z2Qc_inj a b : Z2Qc a = Z2Qc b -> a = b.
Proof.
  intros H. apply (f_equal this) in H. unfold Z2Qc in H. cbn [this Q2Qc] in H.
  assert (E : (inject_Z a == inject_Z b)%Q).
  { rewrite <- (Qred_correct (inject_Z a)), <- (Qred_correct (inject_Z b)), H.
    reflexivity. }
  unfold Qeq in E. simpl in E. lia.
Qed.


Lemma Qcinv_positive (b : Qc) : (0 < b)%Qc -> (0 < / b)%Qc.
Proof.
  intros Hb. unfold Qclt in *. cbn [this Qcinv Q2Qc]. setoid_rewrite Qred_correct.
  apply Qinv_lt_0_compat. exact Hb.
Qed.

Lemma Qcdiv_neg_pos (a b : Qc) : (a < 0)%Qc -> (0 < b)%Qc -> (a / b < 0)%Qc.
Proof.
  intros Ha Hb. unfold Qcdiv.
  replace 0%Qc with (0 * / b)%Qc by ring.
  apply Qcmult_lt_compat_r; [apply Qcinv_positive; exact Hb | exact Ha].
Qed.

Lemma Qcdiv_pos_pos (a b : Qc) : (0 < a)%Qc -> (0 < b)%Qc -> (0 < a / b)%Qc.
Proof.
  intros Ha Hb. unfold Qcdiv.
  replace 0%Qc with (0 * / b)%Qc by ring.
  apply Qcmult_lt_compat_r; [apply Qcinv_positive; exact Hb | exact Ha].
Qed.


(** ** Float cells *)

Lemma Qceqb_Z2Qc_pos z : 0 < z -> Qceqb (Z2Qc z) (Z2Qc 0) = false.
Proof.
  intros H. destruct (Qceqb (Z2Qc z) (Z2Qc 0)) eqn:E; [|reflexivity].
  apply Qceqb_eq, Z2Qc_inj in E. lia.
Qed.

Lemma fdiv_pos x z : 0 < z -> fdiv (Fin x) (of_int z) = Fin (x / Z2Qc z)%Qc.
Proof.
  intros H. unfold of_int. cbn [fdiv]. rewrite Qceqb_Z2Qc_pos by exact H. reflexivity.
Qed.

Lemma fdiv_nan_r x : fdiv x NaN = NaN.
Proof. destruct x; reflexivity. Qed.

Lemma fdiv_zero_r x : fdiv x fzero = NaN \/ fdiv x fzero = PInf \/ fdiv x fzero = NInf.
Proof.
  assert (E : Qceqb (Z2Qc 0) (Z2Qc 0) = true) by reflexivity.
  assert (L : Qcltb (Z2Qc 0) (Z2Qc 0) = false) by reflexivity.
  destruct x as [a| | |]; unfold fzero; cbn [fdiv]; rewrite ?E, ?L; auto.
  destruct (Qcltb (Z2Qc 0) a); auto. destruct (Qcltb a (Z2Qc 0)); auto.
Qed.


(** ** Preprocessing *)

Lemma hours_between_some s e :
  hours_between (Some s) (Some e)
  = Fin (Z2Qc (e - s) / Z2Qc ns_per_second / Z2Qc 3600)%Qc.
Proof.
  unfold hours_between. cbn [ts_sub total_seconds]. apply fdiv_pos. lia.
Qed.

Lemma hours_between_negative s e :
  e < s -> flt (hours_between (Some s) (Some e)) fzero = true.
Proof.
  intros H. rewrite hours_between_some. cbn [flt fzero]. apply Qcltb_lt.
  rewrite Z2Qc_0. apply Qcdiv_neg_pos; [apply Qcdiv_neg_pos|].
  - rewrite <- Z2Qc_0. apply Z2Qc_lt. lia.
  - apply Z2Qc_pos. reflexivity.
  - apply Z2Qc_pos. reflexivity.
Qed.

Section PreprocessFacts.

Variable cell : Type.
Variable to_datetime : cell -> timestamp.

(** C3. For every row of the Trips sheet whose Start Time and End Time
    parse, to [s] and [e], the preprocessed row at the same place has
    Duration (hrs) = (e - s) in seconds divided by 3600, and this value
    is below zero whenever [e < s]: it is neither clamped nor made
    missing. *)
Theorem duration_is_end_minus_start (trips_df : list (raw_trip cell)) i r s e :
  nth_error trips_df i = Some r ->
  to_datetime (raw_start_time r) = Some s ->
  to_datetime (raw_end_time r) = Some e ->
  exists r',
    nth_error (preprocess to_datetime trips_df) i = Some r' /\
    duration_hrs r' = Fin (Z2Qc (e - s) / Z2Qc ns_per_second / Z2Qc 3600)%Qc /\
    (e < s -> flt (duration_hrs r') fzero = true).
Proof.
  intros Hi Hs He. exists (preprocess_row to_datetime r). split.
  - unfold preprocess. rewrite nth_error_map, Hi. reflexivity.
  - cbn [preprocess_row duration_hrs]. rewrite Hs, He. split.
    + apply hours_between_some.
    + apply hours_between_negative.
Qed.

(** C9. Preprocessing keeps the rows, their number and their order: the
    Trip ID, Vehicle ID, Driver ID and Distance columns come out as they
    went in, and the three date and time columns are the parsed cells of
    the same rows. *)
Theorem preprocess_keeps_rows (trips_df : list (raw_trip cell)) :
  List.length (preprocess to_datetime trips_df) = List.length trips_df /\
  map trip_id (preprocess to_datetime trips_df) = map raw_trip_id trips_df /\
  map vehicle_id (preprocess to_datetime trips_df) = map raw_vehicle_id trips_df /\
  map driver_id (preprocess to_datetime trips_df) = map raw_driver_id trips_df /\
  map distance (preprocess to_datetime trips_df) = map raw_distance trips_df /\
  map trip_date (preprocess to_datetime trips_df)
    = map (fun r => to_datetime (raw_trip_date r)) trips_df /\
  map start_time (preprocess to_datetime trips_df)
    = map (fun r => to_datetime (raw_start_time r)) trips_df /\
  map end_time (preprocess to_datetime trips_df)
    = map (fun r => to_datetime (raw_end_time r)) trips_df.
Proof.
  unfold preprocess. rewrite length_map, !map_map. repeat split.
Qed.

End PreprocessFacts.

Lemma duration_is_end_minus_start_witness :
  exists r',
    nth_error (preprocess parse_cell [backwards_trip; undated_trip]) 0 = Some r' /\
    duration_hrs r'
    = Fin (Z2Qc ((30 * day + 8 * hour) - (30 * day + 10 * hour))
           / Z2Qc ns_per_second / Z2Qc 3600)%Qc /\
    ((30 * day + 8 * hour) < (30 * day + 10 * hour) ->
     flt (duration_hrs r') fzero = true).
Proof.
  apply (duration_is_end_minus_start sheet_cell parse_cell
           [backwards_trip; undated_trip] 0 backwards_trip).
  - reflexivity.
  - reflexivity.
  - reflexivity.
Defined.

(** ** Grouping *)

Lemma insert_key_In k x l : In x (insert_key k l) <-> x = k \/ In x l.
Proof.
  induction l as [|y l IH]; simpl.
  - intuition congruence.
  - destruct (String.compare k y) eqn:E; simpl.
    + apply String.compare_eq_iff in E. subst y. intuition congruence.
    + intuition congruence.
    + rewrite IH. intuition congruence.
Qed.

Lemma group_keys_In k col : In k (group_keys col) <-> In (Some k) col.
Proof.
  induction col as [|[x|] col IH]; simpl.
  - reflexivity.
  - rewrite insert_key_In, IH. intuition congruence.
  - rewrite IH. intuition congruence.
Qed.

(** A group is made of the rows that carry its key, and there is one
    for each key some row carries. *)
Lemma groupby_In key df k g :
  In (k, g) (groupby key df) <->
  (exists r, In r df /\ key r = Some k) /\ g = filter (fun r => key_is k (key r)) df.
Proof.
  unfold groupby. rewrite in_map_iff. split.
  - intros (k' & E & Hk). inversion E; subst. split; [|reflexivity].
    apply group_keys_In, in_map_iff in Hk. destruct Hk as (r & Hr & Hin). eauto.
  - intros ((r & Hin & Hr) & ->). exists k. split; [reflexivity|].
    apply group_keys_In, in_map_iff. eauto.
Qed.

Lemma key_is_refl v : key_is v (Some v) = true.
Proof. apply String.eqb_refl. Qed.


Lemma count_cons {A} (x : option A) l :
  count (x :: l) = (if present x then 1 else 0) + count l.
Proof.
  unfold count. cbn [filter]. destruct (present x); cbn [List.length].
  - rewrite Nat2Z.inj_succ. lia.
  - lia.
Qed.

(** ** The last 7 days *)

Lemma recent_trips_app now l1 l2 :
  recent_trips now (l1 ++ l2) = recent_trips now l1 ++ recent_trips now l2.
Proof. apply filter_app. Qed.

Section Window.

Variable cell : Type.
Variable to_datetime : cell -> timestamp.

(** C10. A row whose Trip Date does not parse has a missing Trip Date
    after preprocessing; neither [Trip Date >= cutoff] nor
    [Trip Date < cutoff] holds of it; the window, and with it every
    vehicle's 7-day trip count and distance, are what they are without
    the row. *)
Theorem unparsed_date_outside_window (l1 l2 : list (raw_trip cell)) r now :
  to_datetime (raw_trip_date r) = None ->
  let t := preprocess_row to_datetime r in
  trip_date t = None /\
  ts_ge (trip_date t) (date_cutoff now) = false /\
  ts_lt (trip_date t) (date_cutoff now) = false /\
  recent_trips now (preprocess to_datetime (l1 ++ r :: l2))
    = recent_trips now (preprocess to_datetime (l1 ++ l2)) /\
  summary now (preprocess to_datetime (l1 ++ r :: l2))
    = summary now (preprocess to_datetime (l1 ++ l2)).
Proof.
  intros H t.
  assert (Ht : trip_date t = None) by exact H.
  assert (E : recent_trips now (preprocess to_datetime (l1 ++ r :: l2))
              = recent_trips now (preprocess to_datetime (l1 ++ l2))).
  { unfold preprocess. rewrite !map_app, !recent_trips_app. f_equal.
    cbn [map]. unfold recent_trips at 1. cbn [filter]. fold t. rewrite Ht. reflexivity. }
  repeat split; try (rewrite Ht; reflexivity); try exact E.
  unfold summary. rewrite E. reflexivity.
Qed.

End Window.

Lemma unparsed_date_outside_window_witness :
  recent_trips (30 * day) (preprocess parse_cell [dated_trip; undated_trip; backwards_trip])
  = recent_trips (30 * day) (preprocess parse_cell [dated_trip; backwards_trip]) /\
  summary (30 * day) (preprocess parse_cell [dated_trip; undated_trip; backwards_trip])
  = summary (30 * day) (preprocess parse_cell [dated_trip; backwards_trip]).
Proof.
  apply (unparsed_date_outside_window sheet_cell parse_cell
           [dated_trip] [backwards_trip] undated_trip (30 * day)).
  reflexivity.
Defined.




(** The example of the specification: of two trips of V1, on days 10
    and 17, with the cutoff on day 17, the second alone is counted. *)
Example summary_of_two_trips :
  let trips := [ a_trip (Some "T1"%string) "V1" (10 * day) 50;
                 a_trip (Some "T2"%string) "V1" (17 * day) 60 ] in
  map (fun s => (s_vehicle_id s, trips_7_days s)) (summary (24 * day) trips)
  = [("V1"%string, 1)] /\
  map distance (recent_trips (24 * day) trips) = [of_int 60].
Proof. split; reflexivity. Qed.

(** ** Allocated and available vehicles *)

Lemma pct_formula vehicles_df :
  pct vehicles_df
  = Some (Z2Qc (len (allocated vehicles_df))
          / Z2Qc (Z.max (len (available vehicles_df)) 1) * Z2Qc 100)%Qc.
Proof.
  unfold pct, truediv.
  destruct (Z.eqb_spec (Z.max (len (available vehicles_df)) 1) 0) as [E|E];
    [lia|reflexivity].
Qed.



(** ** Long trips *)

(** C7. Speed (km/h) is Distance / Duration (hrs) on every row, an
    infinity or a missing value when the duration is zero or missing;
    the trips reported are those with a speed below 10, in frame order,
    and a trip with a missing speed is not among them. *)
Theorem long_trips_are_slow_trips trips_df :
  (forall r, speed_kmh (with_speed r) = fdiv (distance r) (duration_hrs r)) /\
  (forall r, duration_hrs r = fzero \/ duration_hrs r = NaN ->
     speed_kmh (with_speed r) = NaN \/ speed_kmh (with_speed r) = PInf
     \/ speed_kmh (with_speed r) = NInf) /\
  List.length (map with_speed trips_df) = List.length trips_df /\
  long_trips trips_df
    = map with_speed
        (filter (fun r => flt (fdiv (distance r) (duration_hrs r)) (of_int 10)) trips_df) /\
  (forall s, In s (long_trips trips_df) <->
     exists r, In r trips_df /\ s = with_speed r /\ flt (speed_kmh s) (of_int 10) = true) /\
  (forall r, speed_kmh (with_speed r) = NaN -> ~ In (with_speed r) (long_trips trips_df)).
Proof.
  split; [reflexivity|]. split.
  { intros r [E|E]; cbn [with_speed speed_kmh]; rewrite E.
    - apply fdiv_zero_r.
    - left. apply fdiv_nan_r. }
  split; [apply length_map|]. split.
  { unfold long_trips. induction trips_df as [|r l IH]; [reflexivity|].
    cbn [map filter]. cbn [with_speed speed_kmh] in *.
    destruct (flt _ _); cbn [map]; rewrite IH; reflexivity. }
  split.
  - intros s. unfold long_trips. rewrite filter_In, in_map_iff. split.
    + intros [(r & <- & Hr) Hs]. eauto.
    + intros (r & Hr & -> & Hs). eauto.
  - intros r E Hin. unfold long_trips in Hin. apply filter_In in Hin.
    destruct Hin as [_ H]. rewrite E in H. discriminate.
Qed.


Example long_trips_of_odd_durations :
  map (fun s => trip_id (the_trip s))
      (long_trips [short_trip "T1" (of_int 1); short_trip "T2" fzero; short_trip "T3" NaN])
  = [Some "T1"%string].
Proof. reflexivity. Qed.

(** ** Utilization over time *)

Lemma ts_min_max col :
  match ts_min col, ts_max col with
  | Some a, Some b => a <= b
  | None, None => True
  | _, _ => False
  end.
Proof.
  induction col as [|[x|] col IH]; cbn [ts_min ts_max]; auto.
  destruct (ts_min col), (ts_max col); try contradiction; lia.
Qed.

Lemma days_active_positive r g d :
  r = aggregate g -> days_active r = Some d ->
  exists a b, first_trip_date r = Some a /\ last_trip_date r = Some b /\
              a <= b /\ d = (b - a) / ns_per_day + 1 /\ 1 <= d.
Proof.
  intros -> H. unfold days_active in H. cbn [aggregate first_trip_date last_trip_date] in *.
  pose proof (ts_min_max (map trip_date (snd g))) as M.
  destruct (ts_min _) as [a|], (ts_max _) as [b|]; try contradiction; try discriminate.
  cbn [ts_sub td_days] in H. injection H as <-.
  exists a, b. repeat split; auto.
  assert (0 <= (b - a) / ns_per_day) by (apply Z.div_pos; [lia|reflexivity]). lia.
Qed.

Lemma avg_trips_week_value r d :
  days_active r = Some d -> 1 <= d ->
  avg_trips_week r = Fin (Z2Qc (total_trips r) / (Z2Qc d / Z2Qc 7))%Qc.
Proof.
  intros E Hd. unfold avg_trips_week. rewrite E. cbn [of_optint].
  change (of_int d) with (Fin (Z2Qc d)). rewrite fdiv_pos by lia.
  unfold of_int. cbn [fdiv].
  destruct (Qceqb (Z2Qc d / Z2Qc 7) (Z2Qc 0)) eqn:Z; [|reflexivity].
  apply Qceqb_eq in Z. exfalso.
  assert (P : (0 < Z2Qc d / Z2Qc 7)%Qc).
  { unfold Qcdiv. replace 0%Qc with (0 * / Z2Qc 7)%Qc by ring.
    apply Qcmult_lt_compat_r.
    - apply Qcinv_positive. rewrite <- Z2Qc_0. apply Z2Qc_lt. reflexivity.
    - rewrite <- Z2Qc_0. apply Z2Qc_lt. lia. }
  rewrite Z, Z2Qc_0 in P. exact (Qclt_not_eq _ _ P eq_refl).
Qed.

Lemma full_summary_In r trips_df :
  In r (full_summary trips_df) ->
  exists g, In (f_vehicle_id r, g) (groupby vehicle_id trips_df) /\ r = aggregate (f_vehicle_id r, g).
Proof.
  unfold full_summary. rewrite in_map_iff. intros ([k g] & <- & H). exists g. auto.
Qed.


Example long_term_of_mixed_fleet :
  map (fun row => (f_vehicle_id (fst row), days_active (fst row), snd row))
      (table (long_term mixed_fleet))
  = [ ("V1", Some 28, "Underutilized"); ("V2", Some 28, "Utilized");
      ("V3", Some 27, "Too New") ]%string.
Proof. reflexivity. Qed.

(** C1, as the code has it. When every vehicle has Days Active below
    28, no row is left for the fleet average, which is then [NaN] and is
    put as such in the note; every vehicle is classified Too New, so the
    undefined average decides no status. *)
Theorem new_fleet_has_no_average trips_df :
  all_too_new trips_df ->
  filtered_summary trips_df = [] /\
  fleet_avg trips_df = NaN /\
  note_average (long_term trips_df) = NaN /\
  Forall (fun row => snd row = "Too New"%string) (table (long_term trips_df)).
Proof.
  intros H. unfold all_too_new in H. rewrite Forall_forall in H.
  assert (E : filtered_summary trips_df = []).
  { unfold filtered_summary. induction (full_summary trips_df) as [|r l IH]; [reflexivity|].
    cbn [filter]. pose proof (H r (or_introl eq_refl)) as Hr.
    destruct (days_active r) as [d|]; [|discriminate]. cbn [days_lt days_ge] in *.
    apply Z.ltb_lt in Hr. destruct (Z.leb_spec 28 d); [lia|].
    apply IH. intros x Hx. apply H. right. exact Hx. }
  assert (A : fleet_avg trips_df = NaN) by (unfold fleet_avg; rewrite E; reflexivity).
  repeat split; auto.
  cbn [long_term table]. apply Forall_forall. intros [r st] Hin.
  apply in_map_iff in Hin. destruct Hin as (r' & Er & Hr). injection Er as -> <-.
  cbn [snd]. unfold status_of. rewrite (H _ Hr). reflexivity.
Qed.

Lemma new_fleet_has_no_average_witness :
  note_average (long_term new_fleet) = NaN
  /\ Forall (fun row => snd row = "Too New"%string) (table (long_term new_fleet)).
Proof.
  apply (new_fleet_has_no_average new_fleet).
  repeat constructor.
Defined.

(** What C1 rules out: all the vehicles of [new_fleet] have been active
    for less than 28 days, and the analysis shows its table and the note
    with the undefined average in it, as on any other input. *)
Lemma undefined_average_is_shown :
  all_too_new new_fleet /\
  map (fun row => days_active (fst row)) (table (long_term new_fleet)) = [Some 4] /\
  map snd (table (long_term new_fleet)) = ["Too New"%string] /\
  note_average (long_term new_fleet) = NaN.
Proof.
  split; [repeat constructor|]. repeat split.
Qed.

(** ** Idle time *)

Lemma id_compare_antisym a b : id_compare a b = CompOpp (id_compare b a).
Proof.
  destruct a, b; cbn [id_compare CompOpp]; auto. apply String.compare_antisym.
Qed.

Lemma ts_compare_antisym a b : ts_compare a b = CompOpp (ts_compare b a).
Proof.
  destruct a, b; cbn [ts_compare CompOpp]; auto. apply Z.compare_antisym.
Qed.

Lemma row_le_total a b : row_le a b = false -> row_le b a = true.
Proof.
  unfold row_le, row_compare.
  rewrite (id_compare_antisym (vehicle_id b)), (ts_compare_antisym (trip_datetime b)).
  destruct (id_compare (vehicle_id a) (vehicle_id b)); cbn [CompOpp];
    destruct (ts_compare (trip_datetime a) (trip_datetime b)); cbn [CompOpp]; congruence.
Qed.

Lemma insert_row_perm r l : Permutation (r :: l) (insert_row r l).
Proof.
  induction l as [|x l IH]; cbn [insert_row]; [reflexivity|].
  destruct (row_le r x); [reflexivity|].
  rewrite perm_swap. apply perm_skip. exact IH.
Qed.

Lemma sort_values_perm df : Permutation df (sort_values df).
Proof.
  induction df as [|r df IH]; cbn [sort_values]; [constructor|].
  rewrite <- insert_row_perm. apply perm_skip. exact IH.
Qed.

Lemma insert_row_sorted r l :
  Sorted (fun a b => row_le a b = true) l ->
  Sorted (fun a b => row_le a b = true) (insert_row r l).
Proof.
  induction 1 as [|x l Hs IH Hd]; cbn [insert_row].
  - repeat constructor.
  - destruct (row_le r x) eqn:E.
    + repeat constructor; assumption.
    + constructor; [exact IH|]. apply row_le_total in E.
      destruct l as [|y l]; cbn [insert_row].
      * constructor. exact E.
      * destruct (row_le r y); constructor; [exact E|].
        inversion Hd; assumption.
Qed.

Lemma sort_values_sorted df : Sorted (fun a b => row_le a b = true) (sort_values df).
Proof.
  induction df as [|r df IH]; cbn [sort_values]; [constructor|].
  apply insert_row_sorted. exact IH.
Qed.

Lemma group_diff_length prev df : List.length (group_diff prev df) = List.length df.
Proof.
  revert prev. induction df as [|r df IH]; intros prev; cbn [group_diff]; [reflexivity|].
  destruct (vehicle_id r); cbn [List.length]; rewrite IH; reflexivity.
Qed.

Lemma group_diff_app prev l1 l2 :
  group_diff prev (l1 ++ l2) = group_diff prev l1 ++ group_diff (seen prev l1) l2.
Proof.
  revert prev. induction l1 as [|r l1 IH]; intros prev; [reflexivity|].
  cbn [app group_diff seen]. destruct (vehicle_id r); cbn [app]; rewrite IH; reflexivity.
Qed.

Lemma seen_other prev l v :
  (forall p, In p l -> vehicle_id p <> Some v) -> seen prev l v = prev v.
Proof.
  revert prev. induction l as [|r l IH]; intros prev H; [reflexivity|].
  cbn [seen]. pose proof (H r (or_introl eq_refl)) as Hr.
  assert (Hl : forall p, In p l -> vehicle_id p <> Some v) by (intros p Hp; apply H; right; exact Hp).
  destruct (vehicle_id r) as [w|]; rewrite IH by exact Hl; [|reflexivity].
  destruct (String.eqb_spec v w); [congruence|reflexivity].
Qed.


Lemma combine_split {A B} (l : list A) (m : list B) pre x post :
  List.length l = List.length m ->
  combine l m = pre ++ x :: post ->
  l = map fst pre ++ fst x :: map fst post /\
  m = map snd pre ++ snd x :: map snd post.
Proof.
  intros Hlen E.
  assert (Hl : map fst (combine l m) = l).
  { clear E. revert m Hlen. induction l as [|a l IH]; intros [|b m] H; try discriminate; [reflexivity|].
    cbn [combine map fst]. f_equal. apply IH. injection H as H. exact H. }
  assert (Hm : map snd (combine l m) = m).
  { clear E Hl. revert m Hlen. induction l as [|a l IH]; intros [|b m] H; try discriminate; [reflexivity|].
    cbn [combine map snd]. f_equal. apply IH. injection H as H. exact H. }
  rewrite E, map_app in Hl, Hm. cbn [map] in Hl, Hm. auto.
Qed.

Lemma app_cons_same_length {A} (a1 a2 : list A) x1 x2 b1 b2 :
  List.length a1 = List.length a2 ->
  a1 ++ x1 :: b1 = a2 ++ x2 :: b2 -> x1 = x2.
Proof.
  revert a2. induction a1 as [|y a1 IH]; intros [|z a2] H E; try discriminate.
  - injection E as E _. exact E.
  - injection E as _ E. injection H as H. eapply IH; eassumption.
Qed.

(** The idle time of a row of the sorted frame, from the rows before it. *)
Lemma idle_of_row trips_df pre r x post :
  trips_sorted trips_df = pre ++ (r, x) :: post ->
  sort_values trips_df = map fst pre ++ r :: map fst post /\
  x = idle_hours
        match vehicle_id r with
        | None => None
        | Some v =>
            match seen (fun _ => None) (map fst pre) v with
            | Some p => ts_sub (trip_datetime r) p
            | None => None
            end
        end.
Proof.
  unfold trips_sorted. intros E.
  apply combine_split in E; [|rewrite length_map, group_diff_length; reflexivity].
  cbn [fst snd] in E. destruct E as [Es Ed]. split; [exact Es|].
  rewrite Es, group_diff_app, map_app in Ed. cbn [group_diff] in Ed.
  destruct (vehicle_id r) as [v|]; cbn [map] in Ed;
    (eapply app_cons_same_length in Ed;
     [symmetry; exact Ed | rewrite !length_map, group_diff_length, length_map; reflexivity]).
Qed.

Lemma idle_hours_none : idle_hours None = NaN.
Proof. reflexivity. Qed.





(** * More of the code *)

(** ** The order of the group keys *)

Lemma compare_as_OT a b : String_as_OT.compare a b = String.compare a b.
Proof.
  reflexivity.
Qed.

Lemma key_lt_trans a b c : key_lt a b -> key_lt b c -> key_lt a c.
Proof.
  unfold key_lt. rewrite <- !compare_as_OT.
  apply (@StrictOrder_Transitive _ _ String_as_OT.lt_strorder).
Qed.

Lemma key_lt_irrefl a : ~ key_lt a a.
Proof.
  unfold key_lt. rewrite <- compare_as_OT.
  apply (@StrictOrder_Irreflexive _ _ String_as_OT.lt_strorder).
Qed.

Lemma compare_gt_lt a b : String.compare a b = Gt -> key_lt b a.
Proof.
  unfold key_lt. intros H. rewrite String.compare_antisym, H. reflexivity.
Qed.

Lemma insert_key_sorted k l : Sorted key_lt l -> Sorted key_lt (insert_key k l).
Proof.
  induction 1 as [|x l Hs IH Hd]; cbn [insert_key].
  - repeat constructor.
  - destruct (String.compare k x) eqn:E.
    + constructor; assumption.
    + repeat constructor; assumption.
    + constructor; [exact IH|]. apply compare_gt_lt in E.
      destruct l as [|y l]; cbn [insert_key].
      * constructor. exact E.
      * destruct (String.compare k y) eqn:F; constructor;
          try exact E; inversion Hd; assumption.
Qed.

Lemma group_keys_sorted col : StronglySorted key_lt (group_keys col).
Proof.
  apply Sorted_StronglySorted; [exact key_lt_trans|].
  induction col as [|[k|] col IH]; cbn [group_keys]; auto using insert_key_sorted.
Qed.

Lemma strictly_sorted_NoDup l : StronglySorted key_lt l -> NoDup l.
Proof.
  induction 1 as [|x l Hs IH Hall]; constructor; [|exact IH].
  intros Hin. rewrite Forall_forall in Hall. exact (key_lt_irrefl x (Hall x Hin)).
Qed.

Lemma groupby_keys key df : map fst (groupby key df) = group_keys (map key df).
Proof.
  unfold groupby. rewrite map_map. cbn [fst]. apply map_id.
Qed.

(** ** Totals over groups *)

Lemma total_cons x l : total (x :: l) = x + total l.
Proof. reflexivity. Qed.

Lemma total_zero {A} (l : list A) : total (map (fun _ => 0) l) = 0.
Proof. induction l as [|x l IH]; [reflexivity|]. cbn [map]. rewrite total_cons, IH. reflexivity. Qed.

Lemma total_add {A} (f g : A -> Z) l :
  total (map (fun x => f x + g x) l) = total (map f l) + total (map g l).
Proof.
  induction l as [|x l IH]; [reflexivity|]. cbn [map]. rewrite !total_cons, IH. lia.
Qed.

Lemma total_other_keys (ks : list string) v c :
  ~ In v ks -> total (map (fun k => if String.eqb v k then c else 0) ks) = 0.
Proof.
  induction ks as [|x ks IH]; intros Hnot; [reflexivity|].
  cbn [map]. rewrite total_cons.
  destruct (String.eqb_spec v x) as [->|_]; [exfalso; apply Hnot; left; reflexivity|].
  rewrite IH; [reflexivity|]. intros H. apply Hnot. right. exact H.
Qed.

Lemma total_single_key (ks : list string) v c :
  NoDup ks -> In v ks ->
  total (map (fun k => if String.eqb v k then c else 0) ks) = c.
Proof.
  induction 1 as [|k ks Hnot Hnd IH]; intros Hin; [contradiction|].
  cbn [map]. rewrite total_cons. destruct Hin as [->|Hin].
  - rewrite String.eqb_refl, total_other_keys by exact Hnot. lia.
  - destruct (String.eqb_spec v k) as [->|_]; [contradiction|]. rewrite IH by exact Hin. lia.
Qed.

(** Each row with a key is in one group, and in one only. *)
Lemma groups_partition (key : trip -> option string) (w : trip -> Z) ks df :
  NoDup ks ->
  (forall r k, In r df -> key r = Some k -> In k ks) ->
  total (map (fun k => total (map w (filter (fun r => key_is k (key r)) df))) ks)
  = total (map w (filter (fun r => present (key r)) df)).
Proof.
  intros Hnd. induction df as [|r df IH]; intros Hks.
  - cbn [filter map]. apply total_zero.
  - assert (Hks' : forall r k, In r df -> key r = Some k -> In k ks)
      by (intros r' k Hin; apply Hks; right; exact Hin).
    specialize (IH Hks'). cbn [filter]. destruct (key r) as [v|] eqn:Kr; cbn [present key_is].
    + cbn [map]. rewrite total_cons, <- IH.
      rewrite <- (total_single_key ks v (w r) Hnd (Hks r v (or_introl eq_refl) Kr)) at 1.
      rewrite <- total_add. f_equal. apply map_ext. intros k.
      destruct (String.eqb v k); cbn [map]; rewrite ?total_cons; reflexivity.
    + exact IH.
Qed.

Lemma groupby_totals key w (agg : string * list trip -> Z) df :
  (forall g, agg g = total (map w (snd g))) ->
  total (map agg (groupby key df))
  = total (map w (filter (fun r => present (key r)) df)).
Proof.
  intros Hagg. unfold groupby. rewrite map_map.
  rewrite <- (groups_partition key w (group_keys (map key df)) df).
  - f_equal. apply map_ext. intros k. rewrite Hagg. reflexivity.
  - apply strictly_sorted_NoDup, group_keys_sorted.
  - intros r k Hin Hk. apply group_keys_In. rewrite <- Hk. apply in_map. exact Hin.
Qed.

Lemma len_as_total {A} (l : list A) : len l = total (map (fun _ => 1) l).
Proof.
  unfold len. induction l as [|x l IH]; [reflexivity|].
  cbn [List.length map]. rewrite total_cons, <- IH, Nat2Z.inj_succ. lia.
Qed.

Lemma count_as_total {A} (f : A -> option string) (l : list A) :
  count (map f l) = total (map (fun r => if present (f r) then 1 else 0) l).
Proof.
  induction l as [|x l IH]; [reflexivity|].
  cbn [map]. rewrite count_cons, total_cons, IH. reflexivity.
Qed.

Lemma total_indicator {A} (p q : A -> bool) (l : list A) :
  total (map (fun r => if q r then 1 else 0) (filter p l))
  = len (filter (fun r => p r && q r) l).
Proof.
  induction l as [|x l IH]; [reflexivity|].
  cbn [filter]. destruct (p x); cbn [andb]; [|exact IH].
  cbn [map]. rewrite total_cons, IH.
  destruct (q x); [|reflexivity].
  unfold len. cbn [List.length]. rewrite Nat2Z.inj_succ. lia.
Qed.

(** ** The grouped frames *)

Lemma group_keys_of_frame {R} (id : R -> string) (agg : string * list trip -> R) key df :
  (forall g, id (agg g) = fst g) ->
  map id (map agg (groupby key df)) = group_keys (map key df).
Proof.
  intros H. rewrite map_map, <- groupby_keys. apply map_ext. exact H.
Qed.

Lemma count_of_group (g : string * list trip) :
  count (map trip_id (snd g))
  = total (map (fun r => if present (trip_id r) then 1 else 0) (snd g)).
Proof. apply count_as_total. Qed.

Lemma summary_keys now trips_df :
  map s_vehicle_id (summary now trips_df)
  = group_keys (map vehicle_id (recent_trips now trips_df)).
Proof. unfold summary. apply group_keys_of_frame. reflexivity. Qed.

Lemma summary_vehicles now trips_df v :
  In v (map s_vehicle_id (summary now trips_df)) <->
  exists t, In t trips_df /\ vehicle_id t = Some v
            /\ ts_ge (trip_date t) (date_cutoff now) = true.
Proof.
  rewrite summary_keys, group_keys_In, in_map_iff. unfold recent_trips. split.
  - intros (t & Hv & Hin). apply filter_In in Hin. destruct Hin. eauto.
  - intros (t & Hin & Hv & Hd). exists t. split; [exact Hv|]. apply filter_In. auto.
Qed.

(** X3. The 7-day summary has one row for each Vehicle ID that
    some trip of the window carries and for no other, in increasing
    order of Vehicle ID; its trip counts add up to the number of trips
    of the window that have a Vehicle ID and a Trip ID. *)
Theorem summary_has_one_row_per_recent_vehicle now trips_df :
  StronglySorted key_lt (map s_vehicle_id (summary now trips_df)) /\
  NoDup (map s_vehicle_id (summary now trips_df)) /\
  (forall v, In v (map s_vehicle_id (summary now trips_df)) <->
     exists t, In t trips_df /\ vehicle_id t = Some v
               /\ ts_ge (trip_date t) (date_cutoff now) = true) /\
  total (map trips_7_days (summary now trips_df))
  = len (filter (fun r => present (vehicle_id r) && present (trip_id r))
                (recent_trips now trips_df)).
Proof.
  split; [rewrite summary_keys; apply group_keys_sorted|].
  split; [rewrite summary_keys; apply strictly_sorted_NoDup, group_keys_sorted|]. split.
  - apply summary_vehicles.
  - unfold summary. rewrite map_map.
    rewrite (groupby_totals vehicle_id (fun r => if present (trip_id r) then 1 else 0)).
    + apply total_indicator.
    + intros g. apply count_of_group.
Qed.

(** X6. The long-term table has one row for each Vehicle ID of
    the Trips frame, in increasing order; its Total Trips add up to the
    number of trips that have a Vehicle ID and a Trip ID. *)
Theorem full_summary_has_one_row_per_vehicle trips_df :
  StronglySorted key_lt (map f_vehicle_id (full_summary trips_df)) /\
  NoDup (map f_vehicle_id (full_summary trips_df)) /\
  (forall v, In v (map f_vehicle_id (full_summary trips_df)) <->
     exists t, In t trips_df /\ vehicle_id t = Some v) /\
  total (map total_trips (full_summary trips_df))
  = len (filter (fun r => present (vehicle_id r) && present (trip_id r)) trips_df).
Proof.
  assert (K : map f_vehicle_id (full_summary trips_df)
              = group_keys (map vehicle_id trips_df)).
  { unfold full_summary. apply group_keys_of_frame. reflexivity. }
  rewrite K. split; [apply group_keys_sorted|].
  split; [apply strictly_sorted_NoDup, group_keys_sorted|]. split.
  - intros v. rewrite group_keys_In, in_map_iff. split.
    + intros (t & Hv & Hin). eauto.
    + intros (t & Hin & Hv). eauto.
  - unfold full_summary. rewrite map_map.
    rewrite (groupby_totals vehicle_id (fun r => if present (trip_id r) then 1 else 0)).
    + apply total_indicator.
    + intros g. apply count_of_group.
Qed.

(** X17. The driver table has one row for each Driver ID of the
    Trips frame, in increasing order; a Trip Count is not below zero,
    and the Trip Counts add up to the number of trips that have a
    Driver ID and a Trip ID. *)
Theorem driver_stats_has_one_row_per_driver trips_df :
  StronglySorted key_lt (map d_driver_id (driver_stats trips_df)) /\
  NoDup (map d_driver_id (driver_stats trips_df)) /\
  (forall d, In d (map d_driver_id (driver_stats trips_df)) <->
     exists t, In t trips_df /\ driver_id t = Some d) /\
  (forall row, In row (driver_stats trips_df) -> 0 <= trip_count row) /\
  total (map trip_count (driver_stats trips_df))
  = len (filter (fun r => present (driver_id r) && present (trip_id r)) trips_df).
Proof.
  assert (K : map d_driver_id (driver_stats trips_df)
              = group_keys (map driver_id trips_df)).
  { unfold driver_stats. apply group_keys_of_frame. reflexivity. }
  rewrite K. split; [apply group_keys_sorted|].
  split; [apply strictly_sorted_NoDup, group_keys_sorted|]. split; [|split].
  - intros v. rewrite group_keys_In, in_map_iff. split.
    + intros (t & Hv & Hin). eauto.
    + intros (t & Hin & Hv). eauto.
  - intros row Hin. unfold driver_stats in Hin. apply in_map_iff in Hin.
    destruct Hin as (g & <- & _). cbn [driver_totals trip_count]. unfold count. lia.
  - unfold driver_stats. rewrite map_map.
    rewrite (groupby_totals driver_id (fun r => if present (trip_id r) then 1 else 0)).
    + apply total_indicator.
    + intros g. apply count_of_group.
Qed.

Lemma Z2Qc_le a b : a <= b -> (Z2Qc a <= Z2Qc b)%Qc.
Proof.
  intros H. destruct (Z.eq_dec a b) as [->|N]; [apply Qcle_refl|].
  apply Qclt_le_weak, Z2Qc_lt. lia.
Qed.

Lemma flt_of_int_mono x a b : a <= b -> flt x (of_int a) = true -> flt x (of_int b) = true.
Proof.
  intros H. destruct x as [q| | |]; cbn [flt of_int]; auto.
  rewrite !Qcltb_lt. intros L. eapply Qclt_le_trans; [exact L|apply Z2Qc_le; exact H].
Qed.

(** X4. The vehicles listed for a threshold are listed for every
    higher one, and are rows of the summary; with the Trip Count metric
    and a threshold of 0 or less none is listed. *)
Theorem filtered_grows_with_threshold metric now trips_df low high :
  low <= high ->
  (forall s, In s (filtered metric low now trips_df) ->
             In s (filtered metric high now trips_df)) /\
  (forall s, In s (filtered metric high now trips_df) -> In s (summary now trips_df)) /\
  (low <= 0 -> filtered TripCount low now trips_df = []).
Proof.
  intros H. split; [|split].
  - intros s. destruct metric; cbn [filtered]; rewrite !filter_In; intros [Hin Hs];
      (split; [exact Hin|]).
    + apply Z.ltb_lt. apply Z.ltb_lt in Hs. lia.
    + eapply flt_of_int_mono; eassumption.
  - intros s. destruct metric; cbn [filtered]; rewrite filter_In; tauto.
  - intros H0. cbn [filtered]. unfold summary.
    induction (groupby vehicle_id (recent_trips now trips_df)) as [|g l IH]; [reflexivity|].
    cbn [map filter]. rewrite IH.
    destruct (Z.ltb_spec (trips_7_days (summarise g)) low) as [L|_]; [|reflexivity].
    cbn [summarise trips_7_days] in L. unfold count in L. lia.
Qed.

Lemma filtered_grows_with_threshold_witness :
  1 <= 3 /\
  (forall s, In s (filtered TripCount 1 (17 * day) new_fleet) ->
             In s (filtered TripCount 3 (17 * day) new_fleet)).
Proof.
  split; [discriminate|].
  refine (proj1 (filtered_grows_with_threshold TripCount (17 * day) new_fleet 1 3 _)).
  discriminate.
Defined.

(** X5. A vehicle none of whose trips is in the 7-day window is
    not among the underutilized vehicles, whatever the metric and the
    threshold: it has no row in the summary. *)
Theorem vehicle_without_recent_trip_is_not_listed metric threshold now trips_df v :
  (forall t, In t trips_df -> vehicle_id t = Some v ->
             ts_ge (trip_date t) (date_cutoff now) = false) ->
  forall s, In s (filtered metric threshold now trips_df) -> s_vehicle_id s <> v.
Proof.
  intros Hold s Hs Hv.
  assert (Hin : In s (summary now trips_df)).
  { destruct metric; cbn [filtered] in Hs; apply filter_In in Hs; tauto. }
  assert (Hk : In v (map s_vehicle_id (summary now trips_df)))
    by (rewrite <- Hv; apply in_map; exact Hin).
  apply summary_vehicles in Hk.
  destruct Hk as (t & Ht & Htv & Hd). rewrite (Hold t Ht Htv) in Hd. discriminate.
Qed.

Lemma vehicle_without_recent_trip_is_not_listed_witness :
  recent_trips (30 * day) new_fleet = [] /\
  (forall s, In s (filtered TripCount 3 (30 * day) new_fleet) ->
             s_vehicle_id s <> "V1"%string).
Proof.
  split; [reflexivity|].
  refine (vehicle_without_recent_trip_is_not_listed TripCount 3 (30 * day) new_fleet "V1" _).
  intros t [<-|[<-|[]]] _; reflexivity.
Defined.

(** ** Days active and the fleet average *)

Lemma ts_min_none col : ts_min col = None <-> forall x, In x col -> x = None.
Proof.
  induction col as [|[x|] col IH]; cbn [ts_min].
  - split; [intros _ x []|reflexivity].
  - split.
    + destruct (ts_min col); discriminate.
    + intros H. discriminate (H (Some x) (or_introl eq_refl)).
  - rewrite IH. split.
    + intros H x [<-|Hx]; auto.
    + intros H x Hx. apply H. right. exact Hx.
Qed.

Lemma days_active_none g :
  days_active (aggregate g) = None <-> ts_min (map trip_date (snd g)) = None.
Proof.
  unfold days_active. cbn [aggregate first_trip_date last_trip_date].
  pose proof (ts_min_max (map trip_date (snd g))) as M.
  destruct (ts_min _), (ts_max _); try contradiction; cbn [ts_sub td_days];
    split; congruence.
Qed.

Lemma Z2Qc_nonneg z : 0 <= z -> (0 <= Z2Qc z)%Qc.
Proof. intros H. rewrite <- Z2Qc_0. apply Z2Qc_le. exact H. Qed.

Lemma Qcdiv_nonneg_pos (a b : Qc) : (0 <= a)%Qc -> (0 < b)%Qc -> (0 <= a / b)%Qc.
Proof.
  intros Ha Hb. unfold Qcdiv.
  replace 0%Qc with (0 * / b)%Qc by ring.
  apply Qcmult_le_compat_r; [exact Ha|]. apply Qclt_le_weak, Qcinv_positive. exact Hb.
Qed.

Lemma total_trips_nonneg g : 0 <= total_trips (aggregate g).
Proof. cbn [aggregate total_trips]. unfold count. lia. Qed.

Lemma avg_trips_week_finite r g d :
  r = aggregate g -> days_active r = Some d ->
  1 <= d /\ exists q, avg_trips_week r = Fin q /\ (0 <= q)%Qc.
Proof.
  intros Hr Hd.
  destruct (days_active_positive r g d Hr Hd) as (a & b & _ & _ & _ & _ & Hpos).
  split; [exact Hpos|]. eexists. split; [apply avg_trips_week_value; eassumption|].
  apply Qcdiv_nonneg_pos.
  - apply Z2Qc_nonneg. rewrite Hr. apply total_trips_nonneg.
  - apply Qcdiv_pos_pos; apply Z2Qc_pos; lia.
Qed.

Lemma fsum_finite l : Forall finite_nonneg l -> finite_nonneg (fsum l).
Proof.
  induction 1 as [|x l (q & -> & Hq) _ (s & Hs & Hs0)]; cbn [fsum is_nan].
  - exists 0%Qc. split; [reflexivity|apply Qcle_refl].
  - rewrite Hs. cbn [fadd]. eexists. split; [reflexivity|].
    replace 0%Qc with (0 + 0)%Qc by ring. apply Qcplus_le_compat; assumption.
Qed.

Lemma filter_not_nan l : Forall finite_nonneg l -> filter (fun x => negb (is_nan x)) l = l.
Proof.
  induction 1 as [|x l (q & -> & _) _ IH]; [reflexivity|].
  cbn [filter is_nan negb]. rewrite IH. reflexivity.
Qed.

Lemma fmean_finite l : l <> [] -> Forall finite_nonneg l -> finite_nonneg (fmean l).
Proof.
  intros Hne Hall. unfold fmean. rewrite filter_not_nan by exact Hall.
  destruct l as [|x l]; [congruence|].
  destruct (fsum_finite _ Hall) as (s & -> & Hs).
  rewrite fdiv_pos by (cbn [List.length]; lia).
  eexists. split; [reflexivity|]. apply Qcdiv_nonneg_pos; [exact Hs|].
  apply Z2Qc_pos. cbn [List.length]. lia.
Qed.

Lemma mature_rows_finite trips_df :
  Forall finite_nonneg (map avg_trips_week (filtered_summary trips_df)).
Proof.
  apply Forall_forall. intros x Hx. apply in_map_iff in Hx.
  destruct Hx as (r & <- & Hr). unfold filtered_summary in Hr. apply filter_In in Hr.
  destruct Hr as [Hr Hd]. destruct (full_summary_In _ _ Hr) as (g & _ & Hg).
  destruct (days_active r) as [d|] eqn:D; [|discriminate].
  exact (proj2 (avg_trips_week_finite r _ d Hg D)).
Qed.

(** X8. As soon as one vehicle has Days Active of 28 or more, the
    fleet average is a number, not below zero. *)
Theorem fleet_average_is_a_number trips_df r :
  In r (full_summary trips_df) ->
  days_ge (days_active r) 28 = true ->
  exists q, fleet_avg trips_df = Fin q /\ (0 <= q)%Qc.
Proof.
  intros Hr Hd. unfold fleet_avg. apply fmean_finite; [|apply mature_rows_finite].
  assert (Hin : In r (filtered_summary trips_df))
    by (unfold filtered_summary; apply filter_In; auto).
  intros E. apply map_eq_nil in E. rewrite E in Hin. exact Hin.
Qed.

Lemma fleet_average_is_a_number_witness :
  exists q, fleet_avg mixed_fleet = Fin q /\ (0 <= q)%Qc.
Proof.
  apply (fleet_average_is_a_number mixed_fleet
           (aggregate ("V1"%string, filter (fun r => key_is "V1" (vehicle_id r)) mixed_fleet))).
  - left. reflexivity.
  - reflexivity.
Defined.

(** X7. When a vehicle has a Days Active, it is at least 1, and
    its Avg Trips/Week is a number, not below zero: the division by
    Days Active / 7 never has a zero divisor. *)
Theorem days_active_is_at_least_one trips_df r d :
  In r (full_summary trips_df) ->
  days_active r = Some d ->
  1 <= d /\ 0 <= total_trips r /\
  exists q, avg_trips_week r = Fin q /\ (0 <= q)%Qc.
Proof.
  intros Hr Hd. destruct (full_summary_In _ _ Hr) as (g & _ & Hg).
  destruct (avg_trips_week_finite r _ d Hg Hd) as [H1 H2].
  split; [exact H1|]. split; [rewrite Hg; apply total_trips_nonneg|exact H2].
Qed.

Lemma days_active_is_at_least_one_witness :
  1 <= 28 /\ 0 <= total_trips (aggregate ("V1"%string, filter (fun r => key_is "V1" (vehicle_id r)) mixed_fleet)).
Proof.
  refine (let H := days_active_is_at_least_one mixed_fleet
            (aggregate ("V1"%string, filter (fun r => key_is "V1" (vehicle_id r)) mixed_fleet))
            28 _ _ in conj (proj1 H) (proj1 (proj2 H))).
  - left. reflexivity.
  - reflexivity.
Defined.

(** X9. A vehicle none of whose trips has a Trip Date has no
    Days Active and no Avg Trips/Week, is left out of the fleet average,
    and is classified Utilized. *)
Theorem undated_vehicle_is_utilized trips_df r st :
  In (r, st) (table (long_term trips_df)) ->
  (forall t, In t trips_df -> vehicle_id t = Some (f_vehicle_id r) -> trip_date t = None) ->
  days_active r = None /\ avg_trips_week r = NaN /\
  st = "Utilized"%string /\ ~ In r (filtered_summary trips_df).
Proof.
  intros Hin Hnone. cbn [long_term table] in Hin. apply in_map_iff in Hin.
  destruct Hin as (r' & E & Hr). injection E as -> <-.
  destruct (full_summary_In _ _ Hr) as (g & Hg & Hagg).
  apply groupby_In in Hg. destruct Hg as [_ Hg].
  assert (D : days_active r = None).
  { rewrite Hagg. apply days_active_none. apply ts_min_none. cbn [snd]. rewrite Hg.
    intros x Hx. apply in_map_iff in Hx. destruct Hx as (t & <- & Ht).
    apply filter_In in Ht. destruct Ht as [Ht Hk]. apply Hnone; [exact Ht|].
    unfold key_is in Hk. destruct (vehicle_id t) as [k|]; [|discriminate].
    apply String.eqb_eq in Hk. congruence. }
  assert (A : avg_trips_week r = NaN).
  { unfold avg_trips_week. rewrite D. reflexivity. }
  split; [exact D|]. split; [exact A|]. split.
  - unfold status_of. rewrite D, A. reflexivity.
  - unfold filtered_summary. rewrite filter_In, D. cbn [days_ge]. intros [_ H]. discriminate.
Qed.

Lemma undated_vehicle_is_utilized_witness :
  days_active (aggregate ("V2"%string, filter (fun r => key_is "V2" (vehicle_id r)) undated_fleet)) = None.
Proof.
  apply (undated_vehicle_is_utilized undated_fleet
           (aggregate ("V2"%string, filter (fun r => key_is "V2" (vehicle_id r)) undated_fleet))
           "Utilized").
  - right. left. reflexivity.
  - intros t [<-|[<-|[]]] H; [discriminate H|reflexivity].
Defined.

Lemma filter_map_swap {A B} (f : A -> B) (p : B -> bool) l :
  filter p (map f l) = map f (filter (fun x => p (f x)) l).
Proof.
  induction l as [|x l IH]; [reflexivity|].
  cbn [map filter]. destruct (p (f x)); cbn [map]; rewrite IH; reflexivity.
Qed.

(** X10. The Status given to the rows of [filtered_summary] is
    the Status the same vehicles have in the full table. *)
Theorem filtered_status_agrees trips_df :
  filtered_status trips_df
  = filter (fun row => days_ge (days_active (fst row)) 28) (table (long_term trips_df)).
Proof.
  unfold filtered_status. cbn [long_term table]. rewrite filter_map_swap. cbn [fst].
  unfold filtered_summary. apply map_ext_in. intros r Hr. apply filter_In in Hr.
  destruct Hr as [_ Hd]. unfold status_of.
  destruct (days_active r) as [d|]; [|discriminate]. cbn [days_ge days_lt] in *.
  apply Z.leb_le in Hd. destruct (Z.ltb_spec d 28); [lia|reflexivity].
Qed.

(** ** Allocation and usage *)

Lemma filter_length_le {A} (p : A -> bool) l : (List.length (filter p l) <= List.length l)%nat.
Proof.
  induction l as [|x l IH]; cbn [filter List.length]; [lia|].
  destruct (p x); cbn [List.length]; lia.
Qed.

Lemma filter_two_lengths {A} (p q : A -> bool) l :
  (forall x, p x = true -> q x = false) ->
  (List.length (filter p l) + List.length (filter q l) <= List.length l)%nat.
Proof.
  intros H. induction l as [|x l IH]; cbn [filter List.length]; [lia|].
  destruct (p x) eqn:P; [rewrite (H x P)|destruct (q x)]; cbn [List.length]; lia.
Qed.

Lemma status_is_exclusive v a b :
  a <> b -> status_is a v = true -> status_is b v = false.
Proof.
  unfold status_is. intros N. destruct (v_status v) as [s|]; [|discriminate].
  intros H. apply String.eqb_eq in H. apply String.eqb_neq. congruence.
Qed.

(** X11. The allocated vehicles are the rows whose Status, in
    lower case, is allocated; no row is both allocated and available,
    and the two counts together do not exceed the number of vehicles. *)
Theorem allocated_and_available_are_apart vehicles_df :
  (forall v, In v (allocated vehicles_df) <->
             In v vehicles_df /\ exists s, v_status v = Some s /\ lower s = "allocated"%string) /\
  (forall v, In v (allocated vehicles_df) -> ~ In v (available vehicles_df)) /\
  len (allocated vehicles_df) + len (available vehicles_df) <= len vehicles_df.
Proof.
  split; [|split].
  - intros v. unfold allocated. rewrite filter_In. unfold status_is. split.
    + intros [Hin H]. split; [exact Hin|]. destruct (v_status v) as [s|]; [|discriminate].
      exists s. split; [reflexivity|]. apply String.eqb_eq. exact H.
    + intros [Hin (s & -> & H)]. split; [exact Hin|]. apply String.eqb_eq. exact H.
  - intros v Ha Hb. unfold allocated, available in *. apply filter_In in Ha, Hb.
    destruct Ha as [_ Ha], Hb as [_ Hb].
    rewrite (status_is_exclusive v "allocated" "available") in Hb; [discriminate|discriminate|exact Ha].
  - unfold len, allocated, available.
    pose proof (filter_two_lengths (status_is "allocated") (status_is "available") vehicles_df) as H.
    assert (forall x, status_is "allocated" x = true -> status_is "available" x = false) as Hx
      by (intros x; apply status_is_exclusive; discriminate).
    specialize (H Hx). lia.
Qed.

Lemma Z2Qc_eq0 z : Z2Qc z = 0%Qc -> z = 0.
Proof. rewrite <- Z2Qc_0. apply Z2Qc_inj. Qed.

(** X13. The ratio always has a value, not below zero; it is zero
    exactly when no vehicle is allocated, and it is allocated /
    available * 100 when a vehicle is available. *)
Theorem pct_is_not_negative vehicles_df :
  exists q, pct vehicles_df = Some q /\ (0 <= q)%Qc /\
            (q = 0%Qc <-> allocated vehicles_df = []) /\
            (0 < len (available vehicles_df) ->
             q = (Z2Qc (len (allocated vehicles_df))
                  / Z2Qc (len (available vehicles_df)) * Z2Qc 100)%Qc).
Proof.
  eexists. split; [apply pct_formula|].
  set (a := len (allocated vehicles_df)). set (m := Z.max (len (available vehicles_df)) 1).
  assert (Ha : 0 <= a) by (unfold a, len; lia).
  assert (Hm : 0 < m) by (unfold m; lia).
  assert (P100 : (0 < Z2Qc 100)%Qc) by (apply Z2Qc_pos; reflexivity).
  split; [|split].
  - replace 0%Qc with (0 * Z2Qc 100)%Qc by ring.
    apply Qcmult_le_compat_r; [|apply Qclt_le_weak; exact P100].
    apply Qcdiv_nonneg_pos; [apply Z2Qc_nonneg; exact Ha|apply Z2Qc_pos; exact Hm].
  - split.
    + intros E. apply Qcmult_integral in E. destruct E as [E|E].
      * unfold Qcdiv in E. apply Qcmult_integral in E. destruct E as [E|E].
        -- apply Z2Qc_eq0 in E. unfold a, len in E.
           destruct (allocated vehicles_df); [reflexivity|]. cbn [List.length] in E. lia.
        -- exfalso. pose proof (Qcinv_positive _ (Z2Qc_pos m Hm)) as P. rewrite E in P.
           exact (Qclt_not_eq _ _ P eq_refl).
      * exfalso. rewrite E in P100. exact (Qclt_not_eq _ _ P100 eq_refl).
    + intros E. unfold a. rewrite E. change (len []) with 0. rewrite Z2Qc_0.
      unfold Qcdiv. ring.
  - intros Hav. unfold m. rewrite Z.max_l by lia. reflexivity.
Qed.

Lemma filter_key_absent k0 ks : ~ In k0 ks -> filter (fun k => String.eqb k0 k) ks = [].
Proof.
  induction ks as [|x ks IH]; intros H; [reflexivity|]. cbn [filter].
  destruct (String.eqb_spec k0 x) as [->|_]; [exfalso; apply H; left; reflexivity|].
  apply IH. intros Hin. apply H. right. exact Hin.
Qed.

Lemma filter_key_present k0 ks :
  NoDup ks -> In k0 ks -> filter (fun k => String.eqb k0 k) ks = [k0].
Proof.
  induction 1 as [|x ks Hnot Hnd IH]; intros Hin; [contradiction|]. cbn [filter].
  destruct Hin as [->|Hin].
  - rewrite String.eqb_refl, filter_key_absent by exact Hnot. reflexivity.
  - destruct (String.eqb_spec k0 x) as [->|_]; [contradiction|]. apply IH. exact Hin.
Qed.

Lemma usage_unfold trips_df :
  usage trips_df
  = map (fun k => (k, len (filter (fun r => key_is k (vehicle_id r)) trips_df)))
        (group_keys (map vehicle_id trips_df)).
Proof. unfold usage, groupby. rewrite map_map. reflexivity. Qed.

Lemma no_trip_of_vehicle k trips_df :
  ~ In (Some k) (map vehicle_id trips_df) ->
  filter (fun r => key_is k (vehicle_id r)) trips_df = [].
Proof.
  induction trips_df as [|r l IH]; intros H; [reflexivity|]. cbn [filter map] in *.
  unfold key_is at 1. destruct (vehicle_id r) as [s|] eqn:V.
  - destruct (String.eqb_spec s k) as [->|_]; [exfalso; apply H; left; reflexivity|].
    apply IH. intros Hin. apply H. right. exact Hin.
  - apply IH. intros Hin. apply H. right. exact Hin.
Qed.

Lemma matching_usage v trips_df :
  match matching v (usage trips_df) with
  | [] => m_trip_count (merged_row_of trips_df v) = 0
  | [n] => m_trip_count (merged_row_of trips_df v) = n
  | _ => False
  end.
Proof.
  unfold matching. rewrite usage_unfold, filter_map_swap, map_map. cbn [fst snd].
  cbn [merged_row_of m_trip_count].
  destruct (v_vehicle_id v) as [k0|]; cbn [key_is].
  - destruct (in_dec string_dec k0 (group_keys (map vehicle_id trips_df))) as [Hin|Hout].
    + rewrite (filter_key_present k0) by
        (auto using strictly_sorted_NoDup, group_keys_sorted). reflexivity.
    + rewrite (filter_key_absent k0) by exact Hout. cbn [map].
      rewrite no_trip_of_vehicle; [reflexivity|]. rewrite <- group_keys_In. exact Hout.
  - induction (group_keys (map vehicle_id trips_df)) as [|k ks IH]; [reflexivity|exact IH].
Qed.

(** X12. The usage table lists every row of the Vehicles sheet
    once, in sheet order, missing cells filled with 0, beside the number
    of trips that carry its Vehicle ID: 0 for a vehicle without trips or
    without a Vehicle ID. *)
Theorem merged_lists_every_vehicle_once vehicles_df trips_df :
  merged vehicles_df trips_df = map (merged_row_of trips_df) vehicles_df /\
  List.length (merged vehicles_df trips_df) = List.length vehicles_df /\
  (forall row, In row (merged vehicles_df trips_df) -> 0 <= m_trip_count row).
Proof.
  assert (E : merged vehicles_df trips_df = map (merged_row_of trips_df) vehicles_df).
  { unfold merged, merge_left.
    set (F := fun p : vehicle * option Z => _).
    set (G := fun v : vehicle => _).
    induction vehicles_df as [|v l IH]; [reflexivity|].
    cbn [flat_map map]. rewrite map_app, IH. clear IH. f_equal.
    pose proof (matching_usage v trips_df) as M. subst F G. cbn beta.
    destruct (matching v (usage trips_df)) as [|n [|n' ms]]; try contradiction;
      cbn [map app fst snd]; unfold merged_row_of in *; cbn [m_trip_count] in M;
      rewrite M; reflexivity. }
  split; [exact E|]. split; [rewrite E; apply length_map|].
  intros row Hin. rewrite E in Hin. apply in_map_iff in Hin. destruct Hin as (v & <- & _).
  cbn [merged_row_of m_trip_count]. destruct (v_vehicle_id v); unfold len; lia.
Qed.

Example merged_of_fleet :
  map (fun r => (m_vehicle_id r, m_status r, m_trip_count r)) (merged fleet mixed_fleet)
  = [ (Kept "V1", Kept "Allocated", 2); (Kept "V2", Kept "ALLOCATED", 4);
      (Kept "V3", Kept "maintenance", 3); (Kept "V4", Zero, 0) ]%string.
Proof. reflexivity. Qed.

(** ** Trip DateTime, hours and days *)

Lemma ns_per_day_seconds : ns_per_day = 86400 * ns_per_second.
Proof. reflexivity. Qed.

Lemma seconds_of_day s :
  0 <= (s mod ns_per_day) / ns_per_second < 86400.
Proof.
  assert (H : 0 <= s mod ns_per_day < ns_per_day) by (apply Z.mod_pos_bound; reflexivity).
  split.
  - apply Z.div_pos; [lia|reflexivity].
  - apply Z.div_lt_upper_bound; [reflexivity|]. rewrite Z.mul_comm, <- ns_per_day_seconds. lia.
Qed.

Lemma combine_day d s x :
  combine_datetime (Some d) (Some s) = Some x ->
  x / ns_per_day = d / ns_per_day /\
  x mod ns_per_day = ((s mod ns_per_day) / ns_per_second) * ns_per_second.
Proof.
  cbn [combine_datetime]. intros E. injection E as <-.
  pose proof (seconds_of_day s) as Hq.
  set (q := (s mod ns_per_day) / ns_per_second) in *.
  assert (Hr : 0 <= q * ns_per_second < ns_per_day).
  { rewrite ns_per_day_seconds. unfold ns_per_second. lia. }
  split.
  - symmetry. apply (Z.div_unique _ _ _ (q * ns_per_second)); [left; exact Hr|]. lia.
  - symmetry. apply (Z.mod_unique _ _ (d / ns_per_day)); [left; exact Hr|]. lia.
Qed.

Lemma hour_of_combine d s :
  hour_of (combine_datetime (Some d) (Some s)) = hour_of (Some s).
Proof.
  destruct (combine_datetime (Some d) (Some s)) as [x|] eqn:E; [|discriminate].
  destruct (combine_day d s x E) as [_ Hm]. cbn [hour_of]. rewrite Hm. f_equal.
  rewrite Z.div_mul_cancel_r by discriminate.
  rewrite (Z.mul_comm 3600), <- Z.div_div by (try discriminate; reflexivity).
  reflexivity.
Qed.

Lemma day_name_of_combine d s :
  day_name (combine_datetime (Some d) (Some s)) = day_name (Some d).
Proof.
  destruct (combine_datetime (Some d) (Some s)) as [x|] eqn:E; [|discriminate].
  destruct (combine_day d s x E) as [Hd _]. cbn [day_name]. rewrite Hd. reflexivity.
Qed.

Lemma hour_range t h : hour_of t = Some h -> 0 <= h <= 23.
Proof.
  destruct t as [ns|]; [|discriminate]. cbn [hour_of]. intros E. injection E as <-.
  assert (H : 0 <= ns mod ns_per_day < ns_per_day) by (apply Z.mod_pos_bound; reflexivity).
  split.
  - apply Z.div_pos; [lia|reflexivity].
  - apply Z.lt_succ_r. apply Z.div_lt_upper_bound; [reflexivity|].
    unfold ns_per_day, ns_per_second in *. lia.
Qed.

Lemma day_name_in_order ns : exists name, day_name (Some ns) = Some name /\ In name day_order.
Proof.
  cbn [day_name].
  assert (H : 0 <= (ns / ns_per_day + 3) mod 7 < 7) by (apply Z.mod_pos_bound; reflexivity).
  destruct (nth_error day_order (Z.to_nat ((ns / ns_per_day + 3) mod 7))) as [name|] eqn:E.
  - exists name. split; [reflexivity|]. eapply nth_error_In. exact E.
  - apply nth_error_None in E. cbn [day_order List.length] in E. lia.
Qed.

Section PeakFacts.

Variable cell : Type.
Variable to_datetime : cell -> timestamp.

(** X1. Trip DateTime is missing exactly when the Trip Date or the
    Start Time is; otherwise it falls on the calendar day of the Trip
    Date, at the time of day of the Start Time cut to the whole second. *)
Theorem trip_datetime_joins_date_and_time (r : raw_trip cell) :
  let t := preprocess_row to_datetime r in
  (trip_datetime t = None <-> trip_date t = None \/ start_time t = None) /\
  (forall d s, trip_date t = Some d -> start_time t = Some s ->
     exists x, trip_datetime t = Some x /\
               x / ns_per_day = d / ns_per_day /\
               x mod ns_per_day = ((s mod ns_per_day) / ns_per_second) * ns_per_second /\
               0 <= s mod ns_per_day - x mod ns_per_day < ns_per_second).
Proof.
  cbn zeta. cbn [preprocess_row trip_datetime trip_date start_time]. split.
  - destruct (to_datetime (raw_trip_date r)), (to_datetime (raw_start_time r));
      cbn [combine_datetime]; split; try discriminate; auto.
    + intros [H|H]; discriminate.
  - intros d s -> ->. eexists. split; [reflexivity|].
    destruct (combine_day d s _ eq_refl) as [Hd Hm]. split; [exact Hd|]. split; [exact Hm|].
    rewrite Hm.
    pose proof (Z.div_mod (s mod ns_per_day) ns_per_second ltac:(discriminate)) as E.
    pose proof (Z.mod_pos_bound (s mod ns_per_day) ns_per_second eq_refl) as B. lia.
Qed.

(** X16. The Hour and Day of Week columns have one cell for each
    trip. The hour is that of the Start Time and the day that of the
    Trip Date; both are missing when Trip DateTime is. An hour is
    between 0 and 23, and a day is one of the seven of the order given
    to the histogram. *)
Theorem peak_columns_follow_start_and_date (trips_df : list (raw_trip cell)) :
  let trips := preprocess to_datetime trips_df in
  List.length (hour_column trips) = List.length trips_df /\
  List.length (day_of_week_column trips) = List.length trips_df /\
  (forall t, In t trips ->
     (trip_date t <> None -> hour_of (trip_datetime t) = hour_of (start_time t)) /\
     (start_time t <> None -> day_name (trip_datetime t) = day_name (trip_date t)) /\
     (trip_datetime t = None -> hour_of (trip_datetime t) = None
                                /\ day_name (trip_datetime t) = None)) /\
  (forall h, In (Some h) (hour_column trips) -> 0 <= h <= 23) /\
  (forall name, In (Some name) (day_of_week_column trips) -> In name day_order).
Proof.
  cbn zeta. unfold hour_column, day_of_week_column, preprocess. rewrite !length_map.
  split; [reflexivity|]. split; [reflexivity|]. split; [|split].
  - intros t Hin. apply in_map_iff in Hin. destruct Hin as (r & <- & _).
    cbn [preprocess_row trip_datetime trip_date start_time].
    destruct (to_datetime (raw_trip_date r)) as [d|], (to_datetime (raw_start_time r)) as [s|];
      (split; [|split]); intros H; try congruence;
      try apply hour_of_combine; try apply day_name_of_combine;
      try discriminate H; split; reflexivity.
  - intros h Hin. apply in_map_iff in Hin. destruct Hin as (t & E & _).
    eapply hour_range. exact E.
  - intros name Hin. apply in_map_iff in Hin. destruct Hin as (t & E & _).
    destruct (trip_datetime t) as [ns|]; [|discriminate].
    destruct (day_name_in_order ns) as (n' & E' & Hn). congruence.
Qed.

End PeakFacts.

Example peak_columns_of_new_fleet :
  hour_column [a_trip None "V1" (10 * day + 13 * hour) 5; a_trip None "V1" (4 * day) 5]
  = [Some 13; Some 0] /\
  day_of_week_column [a_trip None "V1" (10 * day + 13 * hour) 5; a_trip None "V1" (4 * day) 5]
  = [Some "Sunday"; Some "Monday"]%string.
Proof. split; reflexivity. Qed.

(** ** Durations and speeds *)

Lemma Qcltb_irrefl a : Qcltb a a = false.
Proof.
  destruct (Qcltb a a) eqn:E; [|reflexivity]. apply Qcltb_lt in E.
  exfalso. exact (Qclt_not_eq _ _ E eq_refl).
Qed.

Lemma Qcltb_asym a b : Qcltb a b = true -> Qcltb b a = false.
Proof.
  intros H. apply Qcltb_lt in H. destruct (Qcltb b a) eqn:E; [|reflexivity].
  apply Qcltb_lt in E. exfalso.
  exact (Qclt_not_eq _ _ (Qclt_trans _ _ _ H E) eq_refl).
Qed.

Lemma Qcopp_positive (b : Qc) : (b < 0)%Qc -> (0 < - b)%Qc.
Proof.
  intros H. apply Qclt_minus_iff in H. replace (0 + - b)%Qc with (- b)%Qc in H by ring.
  exact H.
Qed.

Lemma Qcdiv_pos_neg (a b : Qc) : (0 < a)%Qc -> (b < 0)%Qc -> (a / b < 0)%Qc.
Proof.
  intros Ha Hb. apply Qclt_minus_iff.
  replace (0 + - (a / b))%Qc with (a / - b)%Qc.
  - apply Qcdiv_pos_pos; [exact Ha|apply Qcopp_positive; exact Hb].
  - pose proof (Qclt_not_eq _ _ Hb) as Nb.
    pose proof (Qclt_not_eq _ _ (Qcopp_positive b Hb)) as Nn.
    field. repeat split; intros Z; solve [apply Nb; exact Z | apply Nn; symmetry; exact Z].
Qed.

Lemma hours_between_positive s e :
  s < e -> flt fzero (hours_between (Some s) (Some e)) = true.
Proof.
  intros H. rewrite hours_between_some. cbn [flt fzero]. apply Qcltb_lt.
  rewrite Z2Qc_0. apply Qcdiv_pos_pos; [apply Qcdiv_pos_pos|]; apply Z2Qc_pos;
    try reflexivity. lia.
Qed.

Lemma hours_between_zero s : hours_between (Some s) (Some s) = fzero.
Proof.
  rewrite hours_between_some, Z.sub_diag. unfold fzero. f_equal.
  rewrite Z2Qc_0. unfold Qcdiv. ring.
Qed.

Lemma flt_asym x y : flt x y = true -> flt y x = false.
Proof.
  destruct x, y; cbn [flt]; try reflexivity; try discriminate. apply Qcltb_asym.
Qed.

Lemma flt_irrefl x : flt x x = false.
Proof. destruct x; cbn [flt]; try reflexivity. apply Qcltb_irrefl. Qed.

Section DurationFacts.

Variable cell : Type.
Variable to_datetime : cell -> timestamp.

(** X2. Duration (hrs) is missing exactly when the Start Time or
    the End Time is; otherwise it is below zero, zero or above zero as
    the End Time is before, at or after the Start Time. *)
Theorem duration_sign (r : raw_trip cell) :
  let t := preprocess_row to_datetime r in
  (duration_hrs t = NaN <-> start_time t = None \/ end_time t = None) /\
  (forall s e, start_time t = Some s -> end_time t = Some e ->
     (flt (duration_hrs t) fzero = true <-> e < s) /\
     (duration_hrs t = fzero <-> e = s) /\
     (flt fzero (duration_hrs t) = true <-> s < e)).
Proof.
  cbn zeta. cbn [preprocess_row duration_hrs start_time end_time]. split.
  - destruct (to_datetime (raw_start_time r)) as [s|], (to_datetime (raw_end_time r)) as [e|];
      try (split; [auto|reflexivity]).
    rewrite hours_between_some. split; [discriminate|]. intros [H|H]; discriminate.
  - intros s e -> ->.
    destruct (Z.lt_trichotomy e s) as [L|[->|G]].
    + pose proof (hours_between_negative s e L) as N.
      pose proof (flt_asym _ _ N) as P.
      repeat split; intros H; try lia; try assumption.
      * rewrite H, flt_irrefl in N. discriminate.
      * rewrite H in P. discriminate.
    + rewrite hours_between_zero, flt_irrefl. repeat split; intros; try lia; try discriminate.
    + pose proof (hours_between_positive s e G) as P.
      pose proof (flt_asym _ _ P) as N.
      repeat split; intros H; try lia; try assumption.
      * rewrite H in N. discriminate.
      * rewrite H, flt_irrefl in P. discriminate.
Qed.

(** X19. A trip that ends before it starts, with a distance above
    zero, has a speed below zero and is reported among the long
    trips. *)
Theorem backwards_trip_is_reported (trips_df : list (raw_trip cell)) r s e q :
  In r trips_df ->
  to_datetime (raw_start_time r) = Some s ->
  to_datetime (raw_end_time r) = Some e ->
  e < s ->
  raw_distance r = Fin q -> (0 < q)%Qc ->
  let t := preprocess_row to_datetime r in
  flt (speed_kmh (with_speed t)) fzero = true /\
  In (with_speed t) (long_trips (preprocess to_datetime trips_df)).
Proof.
  intros Hin Hs He Hlt Hd Hq t.
  assert (Hdur : duration_hrs t
                 = Fin (Z2Qc (e - s) / Z2Qc ns_per_second / Z2Qc 3600)%Qc).
  { unfold t. cbn [preprocess_row duration_hrs]. rewrite Hs, He. apply hours_between_some. }
  assert (Hneg : (Z2Qc (e - s) / Z2Qc ns_per_second / Z2Qc 3600 < 0)%Qc).
  { apply Qcdiv_neg_pos; [apply Qcdiv_neg_pos|]; try (apply Z2Qc_pos; reflexivity).
    rewrite <- Z2Qc_0. apply Z2Qc_lt. lia. }
  set (h := (Z2Qc (e - s) / Z2Qc ns_per_second / Z2Qc 3600)%Qc) in *.
  assert (Hspeed : speed_kmh (with_speed t) = Fin (q / h)%Qc).
  { cbn [with_speed speed_kmh]. rewrite Hdur. unfold t. cbn [preprocess_row distance].
    rewrite Hd. cbn [fdiv].
    destruct (Qceqb h (Z2Qc 0)) eqn:Z; [|reflexivity].
    apply Qceqb_eq in Z. rewrite Z, Z2Qc_0 in Hneg. exfalso.
    exact (Qclt_not_eq _ _ Hneg eq_refl). }
  assert (Hsneg : (q / h < 0)%Qc) by (apply Qcdiv_pos_neg; assumption).
  split.
  - rewrite Hspeed. cbn [flt fzero]. apply Qcltb_lt. rewrite Z2Qc_0. exact Hsneg.
  - unfold long_trips. apply filter_In. split.
    + apply in_map. unfold preprocess. apply in_map. exact Hin.
    + rewrite Hspeed. cbn [flt of_int]. apply Qcltb_lt.
      eapply Qclt_trans; [exact Hsneg|]. apply Z2Qc_pos. reflexivity.
Qed.

End DurationFacts.

Lemma backwards_trip_is_reported_witness :
  In (with_speed (preprocess_row parse_cell backwards_trip))
     (long_trips (preprocess parse_cell [dated_trip; backwards_trip])).
Proof.
  apply (backwards_trip_is_reported sheet_cell parse_cell [dated_trip; backwards_trip]
           backwards_trip (30 * day + 10 * hour) (30 * day + 8 * hour) (Z2Qc 50)).
  - right. left. reflexivity.
  - reflexivity.
  - reflexivity.
  - reflexivity.
  - reflexivity.
  - reflexivity.
Defined.

(** X20. A trip of duration zero has an infinite or undefined
    speed: it is not reported when its distance is zero or above, and is
    reported when its distance is below zero. *)
Theorem zero_duration_speed trips_df r q :
  In r trips_df ->
  duration_hrs r = fzero ->
  distance r = Fin q ->
  ((0 < q)%Qc -> speed_kmh (with_speed r) = PInf
                 /\ ~ In (with_speed r) (long_trips trips_df)) /\
  (q = 0%Qc -> speed_kmh (with_speed r) = NaN
               /\ ~ In (with_speed r) (long_trips trips_df)) /\
  ((q < 0)%Qc -> speed_kmh (with_speed r) = NInf
                 /\ In (with_speed r) (long_trips trips_df)).
Proof.
  intros Hin Hdur Hd.
  assert (S : speed_kmh (with_speed r)
              = if Qcltb (Z2Qc 0) q then PInf else if Qcltb q (Z2Qc 0) then NInf else NaN).
  { cbn [with_speed speed_kmh]. rewrite Hdur, Hd. reflexivity. }
  assert (Out : forall x, speed_kmh (with_speed r) = x -> flt x (of_int 10) = false ->
                          ~ In (with_speed r) (long_trips trips_df)).
  { intros x E F H. unfold long_trips in H. apply filter_In in H. destruct H as [_ H].
    rewrite E, F in H. discriminate. }
  rewrite Z2Qc_0 in S. split; [|split].
  - intros P. apply Qcltb_lt in P. rewrite P in S. split; [exact S|].
    eapply Out; [exact S|reflexivity].
  - intros ->. rewrite Qcltb_irrefl in S. split; [exact S|]. eapply Out; [exact S|reflexivity].
  - intros N. apply Qcltb_lt in N. rewrite (Qcltb_asym _ _ N), N in S. split; [exact S|].
    unfold long_trips. apply filter_In. split; [apply in_map; exact Hin|].
    rewrite S. reflexivity.
Qed.

Lemma zero_duration_speed_witness :
  speed_kmh (with_speed (short_trip "T2" fzero)) = PInf
  /\ ~ In (with_speed (short_trip "T2" fzero))
          (long_trips [short_trip "T1" (of_int 1); short_trip "T2" fzero]).
Proof.
  refine (proj1 (zero_duration_speed [short_trip "T1" (of_int 1); short_trip "T2" fzero]
                   (short_trip "T2" fzero) (Z2Qc 5) _ _ _) _).
  - right. left. reflexivity.
  - reflexivity.
  - reflexivity.
  - apply Z2Qc_pos. reflexivity.
Defined.

(** ** The sorted frame *)

Lemma compare_refl s : String.compare s s = Eq.
Proof.
  pose proof (String.compare_antisym s s) as H.
  destruct (String.compare s s); try reflexivity; discriminate.
Qed.

Lemma id_compare_eq a b : id_compare a b = Eq <-> a = b.
Proof.
  destruct a as [x|], b as [y|]; cbn [id_compare]; split; try congruence.
  - intros H. apply String.compare_eq_iff in H. congruence.
  - intros [= ->]. apply compare_refl.
Qed.

Lemma id_compare_lt_trans a b c :
  id_compare a b = Lt -> id_compare b c = Lt -> id_compare a c = Lt.
Proof.
  destruct a as [x|], b as [y|], c as [z|]; cbn [id_compare]; try congruence.
  apply key_lt_trans.
Qed.

Lemma ts_compare_eq a b : ts_compare a b = Eq <-> a = b.
Proof.
  destruct a as [x|], b as [y|]; cbn [ts_compare]; split; try congruence.
  - intros H. apply Z.compare_eq_iff in H. congruence.
  - intros [= ->]. apply Z.compare_refl.
Qed.

Lemma ts_compare_le_trans a b c :
  ts_compare a b <> Gt -> ts_compare b c <> Gt -> ts_compare a c <> Gt.
Proof.
  destruct a as [x|], b as [y|], c as [z|]; cbn [ts_compare]; try congruence.
  rewrite !Z.compare_le_iff. lia.
Qed.

Lemma row_le_spec a b :
  row_le a b = true <->
  id_compare (vehicle_id a) (vehicle_id b) = Lt \/
  (vehicle_id a = vehicle_id b /\ ts_compare (trip_datetime a) (trip_datetime b) <> Gt).
Proof.
  unfold row_le, row_compare.
  destruct (id_compare (vehicle_id a) (vehicle_id b)) eqn:E.
  - apply id_compare_eq in E. split.
    + intros H. right. split; [exact E|]. intros G. rewrite G in H. discriminate.
    + intros [H|[_ H]]; [discriminate|].
      destruct (ts_compare (trip_datetime a) (trip_datetime b)); congruence.
  - split; auto.
  - split; [discriminate|]. intros [H|[H _]]; [discriminate|].
    apply id_compare_eq in H. congruence.
Qed.

Lemma row_le_trans a b c : row_le a b = true -> row_le b c = true -> row_le a c = true.
Proof.
  rewrite !row_le_spec. intros [L1|[E1 T1]] [L2|[E2 T2]].
  - left. eapply id_compare_lt_trans; eassumption.
  - left. rewrite <- E2. exact L1.
  - left. rewrite E1. exact L2.
  - right. split; [congruence|]. eapply ts_compare_le_trans; eassumption.
Qed.

Lemma sort_values_strongly_sorted df :
  StronglySorted (fun a b => row_le a b = true) (sort_values df).
Proof.
  apply Sorted_StronglySorted; [|apply sort_values_sorted].
  intros a b c. apply row_le_trans.
Qed.

Lemma strongly_sorted_middle {A} (R : A -> A -> Prop) pre r post p :
  StronglySorted R (pre ++ r :: post) -> In p pre -> R p r.
Proof.
  induction pre as [|x pre IH]; intros Hs Hin; [contradiction|].
  cbn [app] in Hs. apply StronglySorted_inv in Hs. destruct Hs as [Hs Hall].
  destruct Hin as [->|Hin].
  - rewrite Forall_forall in Hall. apply Hall. apply in_elt.
  - apply IH; assumption.
Qed.

Lemma seen_In prev l v t :
  seen prev l v = Some t ->
  prev v = Some t \/ exists p, In p l /\ vehicle_id p = Some v /\ trip_datetime p = t.
Proof.
  revert prev. induction l as [|r l IH]; intros prev H; [left; exact H|].
  cbn [seen] in H. destruct (vehicle_id r) as [w|] eqn:W.
  - apply IH in H. destruct H as [H|(p & Hp & Hv & Ht)].
    + destruct (String.eqb_spec v w) as [->|_].
      * right. exists r. split; [left; reflexivity|]. split; [exact W|]. congruence.
      * left. exact H.
    + right. exists p. split; [right; exact Hp|auto].
  - apply IH in H. destruct H as [H|(p & Hp & Hv & Ht)]; [left; exact H|].
    right. exists p. split; [right; exact Hp|auto].
Qed.

Lemma idle_hours_nonneg a b : a <= b -> finite_nonneg (idle_hours (Some (b - a))).
Proof.
  intros H. unfold idle_hours. cbn [total_seconds]. rewrite fdiv_pos by lia.
  eexists. split; [reflexivity|].
  apply Qcdiv_nonneg_pos; [apply Qcdiv_nonneg_pos|]; try (apply Z2Qc_pos; reflexivity).
  apply Z2Qc_nonneg. lia.
Qed.

(** X14. The idle time of a row of the sorted frame is missing or
    a number not below zero. *)
Theorem idle_time_is_never_negative trips_df r x :
  In (r, x) (trips_sorted trips_df) ->
  (x = NaN \/ finite_nonneg x) /\ flt x fzero = false.
Proof.
  intros Hin.
  assert (H : x = NaN \/ finite_nonneg x).
  { apply in_split in Hin. destruct Hin as (pre & post & E).
    destruct (idle_of_row _ _ _ _ _ E) as [Hs ->].
    destruct (vehicle_id r) as [v|] eqn:V; [|left; reflexivity].
    destruct (seen (fun _ => None) (map fst pre) v) as [t|] eqn:S; [|left; reflexivity].
    apply seen_In in S. destruct S as [S|(p & Hp & Hv & <-)]; [discriminate|].
    pose proof (sort_values_strongly_sorted trips_df) as SS. rewrite Hs in SS.
    pose proof (strongly_sorted_middle _ _ _ _ _ SS Hp) as Hle. cbn beta in Hle.
    apply row_le_spec in Hle. destruct Hle as [L|[_ T]].
    { rewrite Hv, V in L. cbn [id_compare] in L. rewrite compare_refl in L. discriminate. }
    destruct (trip_datetime r) as [b|], (trip_datetime p) as [a|];
      cbn [ts_sub]; try (left; reflexivity).
    right. apply idle_hours_nonneg. cbn [ts_compare] in T. apply Z.compare_le_iff. exact T. }
  split; [exact H|]. destruct H as [->|(q & -> & Hq)]; [reflexivity|].
  cbn [flt fzero]. destruct (Qcltb q (Z2Qc 0)) eqn:L; [|reflexivity].
  apply Qcltb_lt in L. rewrite Z2Qc_0 in L. exfalso. exact (Qcle_not_lt _ _ Hq L).
Qed.

Lemma idle_time_is_never_negative_witness :
  flt (idle_hours (Some (10 * hour))) fzero = false.
Proof.
  apply (idle_time_is_never_negative blank_id_trips
           (a_trip None "V1" (10 * day + 10 * hour) 60) (idle_hours (Some (10 * hour)))).
  right. left. reflexivity.
Defined.

Lemma filter_length_perm {A} (f : A -> bool) l l' :
  Permutation l l' -> List.length (filter f l) = List.length (filter f l').
Proof.
  induction 1 as [|x l l' _ IH|x y l|l l' l'' _ IH1 _ IH2]; cbn [filter].
  - reflexivity.
  - destruct (f x); cbn [List.length]; congruence.
  - destruct (f x), (f y); reflexivity.
  - congruence.
Qed.

Lemma filter_nil_none {A} (f : A -> bool) l :
  List.length (filter f l) = 0%nat -> forall x, In x l -> f x = false.
Proof.
  intros H x Hin. destruct (f x) eqn:F; [|reflexivity].
  assert (Hx : In x (filter f l)) by (apply filter_In; auto).
  destruct (filter f l); [contradiction|discriminate].
Qed.

(** X15. A vehicle with one trip only has no row in the idle
    report. *)
Theorem single_trip_vehicle_is_never_reported (l1 l2 : list trip) t v :
  vehicle_id t = Some v ->
  (forall p, In p (l1 ++ l2) -> vehicle_id p <> Some v) ->
  forall row, In row (high_idle_shown (l1 ++ t :: l2)) -> i_vehicle_id row <> Some v.
Proof.
  intros Hv Hothers row Hrow Hid. unfold high_idle_shown, dropna in Hrow.
  apply filter_In in Hrow. destruct Hrow as [Hrow _]. apply in_map_iff in Hrow.
  destruct Hrow as ([r x] & <- & Hr). cbn [idle_columns i_vehicle_id fst] in Hid.
  unfold high_idle in Hr. apply filter_In in Hr. destruct Hr as [Hr Hx]. cbn [snd] in Hx.
  apply in_split in Hr. destruct Hr as (pre & post & E).
  destruct (idle_of_row _ _ _ _ _ E) as [Hs Hidle].
  set (f := fun p : trip => key_is v (vehicle_id p)).
  assert (Hone : List.length (filter f (l1 ++ t :: l2)) = 1%nat).
  { rewrite filter_app. cbn [filter]. unfold f at 2. rewrite Hv, key_is_refl.
    rewrite length_app. cbn [List.length].
    assert (Z1 : filter f l1 = []).
    { destruct (filter f l1) as [|y ys] eqn:F; [reflexivity|].
      assert (Hy : In y (filter f l1)) by (rewrite F; left; reflexivity).
      apply filter_In in Hy. destruct Hy as [Hy Hk]. exfalso.
      apply (Hothers y); [apply in_or_app; left; exact Hy|].
      unfold f, key_is in Hk. destruct (vehicle_id y); [|discriminate].
      apply String.eqb_eq in Hk. congruence. }
    assert (Z2 : filter f l2 = []).
    { destruct (filter f l2) as [|y ys] eqn:F; [reflexivity|].
      assert (Hy : In y (filter f l2)) by (rewrite F; left; reflexivity).
      apply filter_In in Hy. destruct Hy as [Hy Hk]. exfalso.
      apply (Hothers y); [apply in_or_app; right; exact Hy|].
      unfold f, key_is in Hk. destruct (vehicle_id y); [|discriminate].
      apply String.eqb_eq in Hk. congruence. }
    rewrite Z1, Z2. reflexivity. }
  rewrite (filter_length_perm f _ _ (sort_values_perm (l1 ++ t :: l2))), Hs in Hone.
  rewrite filter_app, length_app in Hone. cbn [filter] in Hone.
  unfold f at 2 in Hone. rewrite Hid, key_is_refl in Hone. cbn [List.length] in Hone.
  assert (Hpre : List.length (filter f (map fst pre)) = 0%nat) by lia.
  rewrite Hid, seen_other in Hidle.
  - rewrite Hidle in Hx. discriminate.
  - intros p Hp Hpv. pose proof (filter_nil_none f _ Hpre p Hp) as F.
    unfold f in F. rewrite Hpv, key_is_refl in F. discriminate.
Qed.

Lemma single_trip_vehicle_is_never_reported_witness :
  vehicle_id (a_trip (Some "T7"%string) "V2" (12 * day) 5) = Some "V2"%string /\
  (forall row,
     In row (high_idle_shown ([a_trip (Some "T1"%string) "V1" (10 * day) 50]
                              ++ a_trip (Some "T7"%string) "V2" (12 * day) 5
                              :: [a_trip (Some "T2"%string) "V1" (13 * day) 60])) ->
     i_vehicle_id row <> Some "V2"%string).
Proof.
  split; [reflexivity|].
  refine (single_trip_vehicle_is_never_reported
           [a_trip (Some "T1"%string) "V1" (10 * day) 50]
           [a_trip (Some "T2"%string) "V1" (13 * day) 60]
           (a_trip (Some "T7"%string) "V2" (12 * day) 5) "V2" _ _).
  - reflexivity.
  - intros p [<-|[<-|[]]]; discriminate.
Defined.

(** ** Driver ranking *)

Lemma in_firstn {A} n (l : list A) x : In x (firstn n l) -> In x l.
Proof.
  intros H. rewrite <- (firstn_skipn n l). apply in_or_app. left. exact H.
Qed.

Lemma sorted_firstn {A} (R : A -> A -> Prop) n l :
  StronglySorted R l -> StronglySorted R (firstn n l).
Proof.
  intros H. revert n. induction H as [|x l Hs IH Hall]; intros [|n]; cbn [firstn];
    try constructor.
  - apply IH.
  - rewrite Forall_forall in *. intros y Hy. apply Hall. eapply in_firstn. exact Hy.
Qed.

Lemma head_before_rest {A} (R : A -> A -> Prop) n l a b :
  StronglySorted R l -> In a (firstn n l) -> In b (skipn n l) -> R a b.
Proof.
  intros Hs Ha Hb. rewrite <- (firstn_skipn n l) in Hs.
  apply in_split in Hb. destruct Hb as (m1 & m2 & E). rewrite E in Hs.
  rewrite app_assoc in Hs.
  eapply strongly_sorted_middle; [exact Hs|]. apply in_or_app. left. exact Ha.
Qed.

Lemma descending_trans a b c : descending a b -> descending b c -> descending a c.
Proof. unfold descending. lia. Qed.

Lemma ascending_trans a b c : ascending a b -> ascending b c -> ascending a c.
Proof. unfold ascending. lia. Qed.

Section Ranking.

Variable sort_by_trip_count : bool -> list driver_row -> list driver_row.

Lemma ranking_of (R : driver_row -> driver_row -> Prop) stats sorted :
  (forall a b c, R a b -> R b c -> R a c) ->
  Permutation stats sorted -> Sorted R sorted ->
  List.length (firstn 10 sorted) = Nat.min 10 (List.length stats) /\
  (forall a, In a (firstn 10 sorted) -> In a stats) /\
  StronglySorted R (firstn 10 sorted) /\
  (forall a b, In a (firstn 10 sorted) -> In b (skipn 10 sorted) -> R a b) /\
  Permutation stats (firstn 10 sorted ++ skipn 10 sorted) /\
  ((List.length stats <= 10)%nat -> Permutation stats (firstn 10 sorted)).
Proof.
  intros Ht Hp Hs.
  assert (SS : StronglySorted R sorted) by (apply Sorted_StronglySorted; assumption).
  split; [rewrite length_firstn, (Permutation_length Hp); reflexivity|].
  split.
  { intros a Ha. eapply Permutation_in; [symmetry; exact Hp|].
    eapply in_firstn. exact Ha. }
  split; [apply sorted_firstn; exact SS|].
  split; [intros a b; apply head_before_rest; exact SS|].
  split; [rewrite firstn_skipn; exact Hp|].
  intros Hl. rewrite firstn_all2; [exact Hp|]. rewrite <- (Permutation_length Hp). exact Hl.
Qed.

(** X18. Whenever the sort gives back the driver rows in
    descending, and in ascending, order of Trip Count: the two lists
    hold 10 rows, or every driver when there are fewer; they are in
    order; a driver outside the top 10 has no more trips than any driver
    in it, and one outside the bottom 10 no fewer than any driver in
    it. *)
Theorem top_and_bottom_10 trips_df :
  let stats := driver_stats trips_df in
  Permutation stats (sort_by_trip_count false stats) ->
  Sorted descending (sort_by_trip_count false stats) ->
  Permutation stats (sort_by_trip_count true stats) ->
  Sorted ascending (sort_by_trip_count true stats) ->
  List.length (top_10 sort_by_trip_count trips_df) = Nat.min 10 (List.length stats) /\
  List.length (bottom_10 sort_by_trip_count trips_df) = Nat.min 10 (List.length stats) /\
  StronglySorted descending (top_10 sort_by_trip_count trips_df) /\
  StronglySorted ascending (bottom_10 sort_by_trip_count trips_df) /\
  (forall a b, In a (top_10 sort_by_trip_count trips_df) -> In b stats ->
     trip_count b <= trip_count a \/ In b (top_10 sort_by_trip_count trips_df)) /\
  (forall a b, In a (bottom_10 sort_by_trip_count trips_df) -> In b stats ->
     trip_count a <= trip_count b \/ In b (bottom_10 sort_by_trip_count trips_df)) /\
  ((List.length stats <= 10)%nat ->
     Permutation stats (top_10 sort_by_trip_count trips_df) /\
     Permutation stats (bottom_10 sort_by_trip_count trips_df)).
Proof.
  intros stats Pd Sd Pa Sa.
  destruct (ranking_of descending stats _ descending_trans Pd Sd)
    as (Ld & Id & SSd & Hd & Fd & Ad).
  destruct (ranking_of ascending stats _ ascending_trans Pa Sa)
    as (La & Ia & SSa & Ha & Fa & Aa).
  unfold top_10, bottom_10. fold stats.
  repeat (split; [assumption|]). split; [|split].
  - intros a b Ha' Hb. apply (Permutation_in _ Fd) in Hb. apply in_app_or in Hb.
    destruct Hb as [Hb|Hb]; [right; exact Hb|left; exact (Hd a b Ha' Hb)].
  - intros a b Ha' Hb. apply (Permutation_in _ Fa) in Hb. apply in_app_or in Hb.
    destruct Hb as [Hb|Hb]; [right; exact Hb|left; exact (Ha a b Ha' Hb)].
  - intros Hl. split; [apply Ad|apply Aa]; exact Hl.
Qed.

End Ranking.

Lemma insert_driver_perm asc r l : Permutation (r :: l) (insert_driver asc r l).
Proof.
  induction l as [|x l IH]; cbn [insert_driver]; [reflexivity|].
  destruct (if asc then trip_count r <=? trip_count x else trip_count x <=? trip_count r);
    [reflexivity|].
  rewrite perm_swap. apply perm_skip. exact IH.
Qed.

Lemma insertion_sort_perm asc l : Permutation l (insertion_sort asc l).
Proof.
  induction l as [|r l IH]; cbn [insertion_sort]; [constructor|].
  rewrite <- insert_driver_perm. apply perm_skip. exact IH.
Qed.

Lemma insert_driver_sorted (asc : bool) r l :
  Sorted (if asc then ascending else descending) l ->
  Sorted (if asc then ascending else descending) (insert_driver asc r l).
Proof.
  set (R := if asc then ascending else descending).
  assert (Hyes : forall x, (if asc then trip_count r <=? trip_count x
                            else trip_count x <=? trip_count r) = true -> R r x).
  { intros x. unfold R, ascending, descending. destruct asc; intros H; apply Z.leb_le; exact H. }
  assert (Hno : forall x, (if asc then trip_count r <=? trip_count x
                           else trip_count x <=? trip_count r) = false -> R x r).
  { intros x. unfold R, ascending, descending.
    destruct asc; intros H; apply Z.leb_gt in H; lia. }
  induction 1 as [|x l Hs IH Hd]; cbn [insert_driver].
  - repeat constructor.
  - destruct (if asc then trip_count r <=? trip_count x
              else trip_count x <=? trip_count r) eqn:E.
    + repeat constructor; auto.
    + constructor; [exact IH|]. apply Hno in E.
      destruct l as [|y l]; cbn [insert_driver].
      * constructor. exact E.
      * destruct (if asc then trip_count r <=? trip_count y
                  else trip_count y <=? trip_count r); constructor; [exact E|].
        inversion Hd; assumption.
Qed.

Lemma insertion_sort_sorted (asc : bool) l :
  Sorted (if asc then ascending else descending) (insertion_sort asc l).
Proof.
  induction l as [|r l IH]; cbn [insertion_sort]; [constructor|].
  apply insert_driver_sorted. exact IH.
Qed.

Lemma top_and_bottom_10_witness :
  List.length (top_10 insertion_sort driver_trips)
  = Nat.min 10 (List.length (driver_stats driver_trips)).
Proof.
  apply (top_and_bottom_10 insertion_sort driver_trips).
  - apply insertion_sort_perm.
  - apply (insertion_sort_sorted false).
  - apply insertion_sort_perm.
  - apply (insertion_sort_sorted true).
Defined.

Example driver_ranking :
  map (fun r => (d_driver_id r, trip_count r)) (top_10 insertion_sort driver_trips)
  = [("D3", 3); ("D1", 2); ("D2", 1)]%string /\
  map (fun r => (d_driver_id r, trip_count r)) (bottom_10 insertion_sort driver_trips)
  = [("D2", 1); ("D1", 2); ("D3", 3)]%string.
Proof. split; reflexivity. Qed.
